(** * WireStack / OpenNET terminal front-end: [opennet/scripts/tui.py]

    A shallow embedding of the command dispatch and result-reporting engine
    of [tui.py], and the properties of its specification that can be
    settled on it.

    Python [str] values are modelled by [string]: a sequence of characters
    with codes below 256 (code points of the Latin-1 range).  The process
    boundary ([subprocess.run]), the terminal ([input], [print]), the
    environment and the file system are explicit: an [OS] record gives the
    behaviour of the outside world, and a [State] threads what the program
    has done so far (processes it spawned, lines it consumed, text it
    wrote). *)

From Stdlib Require Import Bool Arith ZArith List Ascii String Lia.
Import ListNotations.

Local Open Scope list_scope.
Local Open Scope string_scope.

(** ** Python [str] primitives *)

Module PyStr.

(** [c in s], for a one-character [c]. *)
Fixpoint char_in (c : ascii) (s : string) : bool :=
  match s with
  | EmptyString => false
  | String d r => Ascii.eqb c d || char_in c r
  end.

Definition code (c : ascii) : nat := nat_of_ascii c.

Definition between (lo hi : nat) (c : ascii) : bool :=
  (lo <=? code c)%nat && (code c <=? hi)%nat.

(** [str.isspace] on one character: TAB..CR, FS..US, SPACE, NEL, NBSP. *)
Definition isspace (c : ascii) : bool :=
  between 9 13 c || between 28 32 c || (code c =? 133)%nat || (code c =? 160)%nat.

(** [str.lower] on one character: A-Z, and the upper-case letters of the
    Latin-1 supplement (all of U+00C0..U+00DE but the sign U+00D7). *)
Definition lower_char (c : ascii) : ascii :=
  if between 65 90 c || (between 192 222 c && negb (code c =? 215)%nat)
  then ascii_of_nat (code c + 32)
  else c.

Fixpoint lower (s : string) : string :=
  match s with
  | EmptyString => EmptyString
  | String c r => String (lower_char c) (lower r)
  end.

Fixpoint lstrip (s : string) : string :=
  match s with
  | EmptyString => EmptyString
  | String c r => if isspace c then lstrip r else s
  end.

Fixpoint rstrip (s : string) : string :=
  match s with
  | EmptyString => EmptyString
  | String c r =>
      match rstrip r with
      | EmptyString => if isspace c then EmptyString else String c EmptyString
      | r' => String c r'
      end
  end.

(** [s.strip()] *)
Definition strip (s : string) : string := rstrip (lstrip s).

(** [s.startswith(p)] *)
Definition startswith (s p : string) : bool := String.prefix p s.

(** [sep.join(xs)] *)
Definition join (sep : string) (xs : list string) : string :=
  String.concat sep xs.

(** [s.replace(old, new)] for a one-character [old]. *)
Fixpoint replace_char (old : ascii) (new : string) (s : string) : string :=
  match s with
  | EmptyString => EmptyString
  | String c r =>
      if Ascii.eqb c old then new ++ replace_char old new r
      else String c (replace_char old new r)
  end.

(** Truth value of a [str]: non-empty. *)
Definition truthy (s : string) : bool :=
  match s with EmptyString => false | _ => true end.

Definition TAB : ascii := ascii_of_nat 9.
Definition LF : ascii := ascii_of_nat 10.
Definition CR : ascii := ascii_of_nat 13.
Definition SQ : ascii := "'"%char.
Definition DQ : ascii := ascii_of_nat 34.
Definition BSL : ascii := "\"%char.

(** The newline as a one-character string. *)
Definition nl : string := String LF EmptyString.

End PyStr.

Import PyStr.

(** ** Outcomes of Python code: a value, a raised exception, or the
       embedding's recursion bound reached. *)

Inductive exn : Type :=
| KeyboardInterrupt
| EOFError
| FileNotFoundError (msg : string)
| ValueError (msg : string)
| OSError (msg : string).

Inductive res (A : Type) : Type :=
| Ok (a : A)
| Raise (e : exn)
| OutOfFuel.

Arguments Ok {A} a.
Arguments Raise {A} e.
Arguments OutOfFuel {A}.

(** ** The standard library's [shlex], as [run] uses and the round-trip
       property reads it *)

Module Shlex.

(** [re.compile(r'[^\w@%+=:,./-]', re.ASCII)]: the characters that are
    NOT matched, i.e. the ones [quote] leaves alone. *)
Definition safe_chars : string :=
  "abcdefghijklmnopqrstuvwxyzABCDEFGHIJKLMNOPQRSTUVWXYZ0123456789_@%+=:,./-".

Definition is_safe (c : ascii) : bool := char_in c safe_chars.

(** [_find_unsafe(s) is None] *)
Fixpoint all_safe (s : string) : bool :=
  match s with
  | EmptyString => true
  | String c r => is_safe c && all_safe r
  end.

(** The replacement text of [quote] for an apostrophe: close the quote,
    an apostrophe between double quotes, open the quote again. *)
Definition sq_escaped : string :=
  String SQ (String DQ (String SQ (String DQ (String SQ "")))).

(** [shlex.quote]: the empty string gives two apostrophes; a string
    without unsafe characters is returned as it is; any other is put
    between apostrophes, every apostrophe inside replaced by
    [sq_escaped]. *)
Definition quote (s : string) : string :=
  if negb (truthy s) then "''"
  else if all_safe s then s
  else String SQ "" ++ replace_char SQ sq_escaped s ++ String SQ "".

(** The fields of a [shlex.shlex(s, posix=True)] instance, as
    [shlex.split] sets them: [whitespace_split = True], [commenters = ''],
    [punctuation_chars = '']. *)
Definition whitespace : string :=
  String " " (String TAB (String CR (String LF ""))).
Definition quotes : string := String SQ (String DQ "").
Definition escape : string := String BSL "".
Definition escapedquotes : string := String DQ "".

(** [wordchars] in POSIX mode: the ASCII letters, digits and underscore,
    and the Latin-1 letters. *)
Definition is_wordchar (c : ascii) : bool :=
  between 97 122 c || between 65 90 c || between 48 57 c || (code c =? 95)%nat
  || (between 192 255 c && negb (code c =? 215)%nat && negb (code c =? 247)%nat).

(** [self.state]: [None], [' '], ['a'], a quote character, or the escape
    character. *)
Inductive lex_state : Type :=
| st_eof
| st_space
| st_word
| st_quote (q : ascii)
| st_escape (e : ascii).

(** The character a state stands for where the code compares or appends
    it ([nextchar != self.state], [self.token += self.state]). *)
Definition state_char (s : lex_state) : option ascii :=
  match s with
  | st_quote q => Some q
  | st_escape e => Some e
  | st_space => Some " "%char
  | st_word => Some "a"%char
  | st_eof => None
  end.

Definition is_quote_state (s : lex_state) : bool :=
  match s with st_quote _ => true | _ => false end.

Inductive token_result : Type :=
| LexError (e : exn)
| Token (result : option string) (state : lex_state) (rest : string).

(** The end of [read_token]: [result = self.token], and
    [if self.posix and not quoted and result == '': result = None]. *)
Definition emit (token : string) (quoted : bool) (state : lex_state) (rest : string)
  : token_result :=
  Token (if negb quoted && negb (truthy token) then None else Some token) state rest.

(** The [while True] loop of [shlex.read_token]; every iteration reads one
    character of [instream] (the empty read at the end of the stream is
    the [EmptyString] case). *)
Fixpoint read_token_loop (instream : string) (state : lex_state) (token : string)
    (quoted : bool) (escapedstate : lex_state) {struct instream} : token_result :=
  match instream with
  | EmptyString =>
      match state with
      | st_eof => emit "" quoted state ""
      | st_space => emit token quoted st_eof ""
      | st_quote _ => LexError (ValueError "No closing quotation")
      | st_escape _ => LexError (ValueError "No escaped character")
      | st_word => emit token quoted st_eof ""
      end
  | String nextchar rest =>
      match state with
      | st_eof => emit "" quoted state rest
      | st_space =>
          if char_in nextchar whitespace then
            if truthy token || quoted then emit token quoted state rest
            else read_token_loop rest state token quoted escapedstate
          else if char_in nextchar escape then
            read_token_loop rest (st_escape nextchar) token quoted st_word
          else if is_wordchar nextchar then
            read_token_loop rest st_word (String nextchar "") quoted escapedstate
          else if char_in nextchar quotes then
            read_token_loop rest (st_quote nextchar) token quoted escapedstate
          else (* whitespace_split *)
            read_token_loop rest st_word (String nextchar "") quoted escapedstate
      | st_quote q =>
          if Ascii.eqb nextchar q then
            read_token_loop rest st_word token true escapedstate
          else if char_in nextchar escape && char_in q escapedquotes then
            read_token_loop rest (st_escape nextchar) token true state
          else
            read_token_loop rest state (token ++ String nextchar "") true escapedstate
      | st_escape e =>
          let token' :=
            if is_quote_state escapedstate
               && negb (Ascii.eqb nextchar e)
               && negb (match state_char escapedstate with
                        | Some q => Ascii.eqb nextchar q
                        | None => false
                        end)
            then token ++ String e ""
            else token in
          read_token_loop rest escapedstate (token' ++ String nextchar "") quoted escapedstate
      | st_word =>
          if char_in nextchar whitespace then
            if truthy token || quoted then emit token quoted st_space rest
            else read_token_loop rest st_space token quoted escapedstate
          else if char_in nextchar quotes then
            read_token_loop rest (st_quote nextchar) token quoted escapedstate
          else if char_in nextchar escape then
            read_token_loop rest (st_escape nextchar) token quoted st_word
          else (* wordchars, quotes or whitespace_split *)
            read_token_loop rest st_word (token ++ String nextchar "") quoted escapedstate
      end
  end.

(** [shlex.read_token]: [quoted = False], [escapedstate = ' '], and
    [self.token] is empty between two calls. *)
Definition read_token (instream : string) (state : lex_state) : token_result :=
  read_token_loop instream state "" false st_space.

(** [list(lex)]: tokens are read until [read_token] gives [None]. *)
Fixpoint tokens (fuel : nat) (instream : string) (state : lex_state)
  : res (list string) :=
  match fuel with
  | O => OutOfFuel
  | S fuel' =>
      match read_token instream state with
      | LexError e => Raise e
      | Token None _ _ => Ok []
      | Token (Some t) state' rest =>
          match tokens fuel' rest state' with
          | Ok ts => Ok (t :: ts)
          | other => other
          end
      end
  end.

(** [shlex.split(s)]; one call of [read_token] per character is the most
    the lexer can need, and one more to see the end. *)
Definition split (s : string) : res (list string) :=
  tokens (S (String.length s)) s st_space.

End Shlex.

(** ** [CommandResult] *)

Record CommandResult : Type := mkCommandResult {
  command : string;
  stdout : string;
  stderr : string;
  returncode : Z
}.

(** The command text [run] computes:
    [" ".join(shlex.quote(str(x)) for x in cmd)]. *)
Definition command_text (cmd : list string) : string :=
  join " " (map Shlex.quote cmd).

(** ** The outside world *)

(** What [subprocess.run(cmd, text=True, capture_output=True)] gives for a
    process that was started and has ended. *)
Record CompletedProcess : Type := mkCompletedProcess {
  proc_stdout : string;
  proc_stderr : string;
  proc_returncode : Z
}.

(** What a call of [subprocess.run] does.  [Exited p]: it returns, with
    the completed process [p], whatever the exit status.  [SpawnRaises e]:
    it raises [e], because the program cannot be started, because the
    bytes the process wrote are not text in the encoding of the locale
    ([UnicodeDecodeError], a [ValueError]), or because the user
    interrupts it. *)
Inductive spawn_outcome : Type :=
| Exited (p : CompletedProcess)
| SpawnRaises (e : exn).

(** What [Path.exists()] does: it returns whether the path exists, or it
    raises the [OSError] of [stat] that it does not take for a missing
    path (a name too long, a directory that may not be searched). *)
Inductive exists_outcome : Type :=
| ExistsReturns (found : bool)
| ExistsRaises (e : exn).

(** What the terminal holds for the next [input()]: a line, or Ctrl-C.
    The end of the list is the end of the input. *)
Inductive input_event : Type :=
| Line (s : string)
| Interrupt.

(** The world the program runs in.  A process may answer differently each
    time: [spawn] gets the invocations made before, oldest first, and the
    argument vector of this one. *)
Record OS : Type := mkOS {
  spawn : list (list string) -> list string -> spawn_outcome;
  environ : string -> option string;
  file_exists : string -> exists_outcome
}.

(** What the program has done: the argument vectors it handed to
    [subprocess.run], the input not yet consumed, and the pieces of text
    written to standard output, one per [print] or [input] prompt. *)
Record State : Type := mkState {
  spawned : list (list string);
  pending : list input_event;
  written : list string
}.

Definition M (A : Type) : Type := OS -> State -> res A * State.

Definition ret {A : Type} (a : A) : M A := fun _ st => (Ok a, st).

Definition bind {A B : Type} (m : M A) (k : A -> M B) : M B :=
  fun os st =>
    match m os st with
    | (Ok a, st') => k a os st'
    | (Raise e, st') => (Raise e, st')
    | (OutOfFuel, st') => (OutOfFuel, st')
    end.

Definition raise {A : Type} (e : exn) : M A := fun _ st => (Raise e, st).

(** [try: m  except ... as e: handler(e)]; a handler re-raises what its
    clauses do not match. *)
Definition try_except {A : Type} (m : M A) (handler : exn -> M A) : M A :=
  fun os st =>
    match m os st with
    | (Raise e, st') => handler e os st'
    | other => other
    end.

Declare Scope py_scope.
Delimit Scope py_scope with py.
Notation "x <- m ;; k" := (bind m (fun x => k))
  (at level 61, m at next level, right associativity) : py_scope.
Notation "m ;;; k" := (bind m (fun _ => k))
  (at level 61, right associativity) : py_scope.
Local Open Scope py_scope.

(** [isinstance(e, Exception)]: [KeyboardInterrupt] is not one. *)
Definition is_Exception (e : exn) : bool :=
  match e with KeyboardInterrupt => false | _ => true end.

(** [str(exc)] *)
Definition exn_str (e : exn) : string :=
  match e with
  | KeyboardInterrupt => ""
  | EOFError => "EOF when reading a line"
  | FileNotFoundError msg | ValueError msg | OSError msg => msg
  end.

(** The text that [print(s)] writes. *)
Definition printed (s : string) : string := s ++ nl.

(** [print(s)] *)
Definition print (s : string) : M unit :=
  fun _ st => (Ok tt, mkState (spawned st) (pending st) (written st ++ [printed s])).

(** [input(msg)] *)
Definition input (msg : string) : M string :=
  fun _ st =>
    let shown := (written st ++ [msg])%list in
    match pending st with
    | [] => (Raise EOFError, mkState (spawned st) [] shown)
    | Line l :: rest => (Ok l, mkState (spawned st) rest shown)
    | Interrupt :: rest => (Raise KeyboardInterrupt, mkState (spawned st) rest shown)
    end.

(** [subprocess.run(cmd, text=True, capture_output=True)] *)
Definition subprocess_run (cmd : list string) : M CompletedProcess :=
  fun os st =>
    let st' := mkState (spawned st ++ [cmd]) (pending st) (written st) in
    match spawn os (spawned st) cmd with
    | Exited p => (Ok p, st')
    | SpawnRaises e => (Raise e, st')
    end.

(** [os.environ.get(name)] *)
Definition environ_get (name : string) : M (option string) :=
  fun os st => (Ok (environ os name), st).

(** ** [pathlib], as far as the program uses it *)

Class Pathlib : Type := {
  Path : Type;
  (** [Path(s)] *)
  path_of : string -> Path;
  (** [str(p)] *)
  path_str : Path -> string;
  (** [p.parent] *)
  path_parent : Path -> Path;
  (** [p / name] *)
  path_div : Path -> string -> Path;
  (** [Path(__file__).resolve()], computed once when the module is loaded *)
  script_file : Path
}.

(** [p.exists()] *)
Definition path_exists `{Pathlib} (p : Path) : M bool :=
  fun os st =>
    match file_exists os (path_str p) with
    | ExistsReturns found => (Ok found, st)
    | ExistsRaises e => (Raise e, st)
    end.

(** ** The program *)

Section Program.

Context `{Pathlib}.

(** [DEFAULT_BINARY = Path(__file__).resolve().parent.parent / "opennet"] *)
Definition DEFAULT_BINARY : Path :=
  path_div (path_parent (path_parent script_file)) "opennet".

(** The [CommandResult] that [run] builds from the completed process. *)
Definition completed (cmd : list string) (proc : CompletedProcess) : CommandResult :=
  mkCommandResult (command_text cmd)
                  (strip (proc_stdout proc))
                  (strip (proc_stderr proc))
                  (proc_returncode proc).

(** [run] *)
Definition run (cmd : list string) : M CommandResult :=
  proc <- subprocess_run cmd ;;
  ret (completed cmd proc).

(** [find_binary] *)
Definition find_binary : M Path :=
  env_path <- environ_get "OPENNET_BIN" ;;
  match env_path with
  | Some p => if truthy p then ret (path_of p) else ret DEFAULT_BINARY
  | None => ret DEFAULT_BINARY
  end.

(** [ensure_binary] *)
Definition ensure_binary (binary : Path) : M Path :=
  found <- path_exists binary ;;
  if negb found then
    raise (FileNotFoundError
             ("OpenNET binary not found at " ++ path_str binary
              ++ ". Build it with 'go build ./cmd/opennet' or set $OPENNET_BIN."))
  else ret binary.

(** [prompt] *)
Definition prompt (msg : string) : M string :=
  line <- input msg ;;
  ret (strip line).

(** [ask_yes_no] *)
Definition ask_yes_no (msg : string) : M bool :=
  answer <- prompt msg ;;
  let choice := lower answer in
  ret (startswith choice "y").

(** [print_result] *)
Definition print_result (result : CommandResult) : M unit :=
  print (nl ++ "$ " ++ command result) ;;;
  (if truthy (stdout result) then print (stdout result) else ret tt) ;;;
  (if truthy (stderr result) then print ("[stderr] " ++ stderr result) else ret tt) ;;;
  print "".

(** *** Leaf actions *)

Definition show_server (binary : Path) : M CommandResult :=
  name <- prompt "Server name: " ;;
  run [path_str binary; "show"; "server"; name].

Definition add_server (binary : Path) : M CommandResult :=
  name <- prompt "Server name: " ;;
  endpoint <- prompt "Endpoint (ip:port): " ;;
  run [path_str binary; "add-server"; "--name"; name; "--endpoint"; endpoint].

Definition delete_server (binary : Path) : M CommandResult :=
  name <- prompt "Server name to delete: " ;;
  run [path_str binary; "delete-server"; name].

Definition list_clients (binary : Path) : M CommandResult :=
  name <- prompt "Server name: " ;;
  run [path_str binary; "list-clients"; "--server"; name].

Definition add_client (binary : Path) : M CommandResult :=
  server <- prompt "Server name: " ;;
  client <- prompt "Client name: " ;;
  run [path_str binary; "add-client"; "--server"; server; "--client"; client].

Definition export_client (binary : Path) : M CommandResult :=
  server <- prompt "Server name: " ;;
  client <- prompt "Client name: " ;;
  output <- prompt "Output path (e.g., ~/client.conf): " ;;
  run [path_str binary; "export-client"; "--server"; server; "--client"; client;
       "--output"; output].

Definition start_server (binary : Path) : M CommandResult :=
  server <- prompt "Server name: " ;;
  run [path_str binary; "up"; server].

Definition stop_server (binary : Path) : M CommandResult :=
  server <- prompt "Server name: " ;;
  run [path_str binary; "down"; server].

(** [reload_server] *)
Definition reload_server (binary : Path) : M CommandResult :=
  server <- prompt "Server name: " ;;
  down_result <- run [path_str binary; "down"; server] ;;
  if negb (returncode down_result =? 0)%Z then ret down_result
  else run [path_str binary; "up"; server].

Definition connect_client (binary : Path) : M CommandResult :=
  server <- prompt "Server name: " ;;
  client <- prompt "Client name: " ;;
  use_ninja <- ask_yes_no "Use ninja mode (Tor)? [y/N]: " ;;
  let cmd := [path_str binary; "connect"; "--server"; server; "--client"; client] in
  let cmd := if use_ninja then (cmd ++ ["--ninja"])%list else cmd in
  run cmd.

Definition disconnect_client (binary : Path) : M CommandResult :=
  server <- prompt "Server name: " ;;
  client <- prompt "Client name: " ;;
  use_ninja <- ask_yes_no "Use ninja mode (Tor)? [y/N]: " ;;
  let cmd := [path_str binary; "disconnect"; "--server"; server; "--client"; client] in
  let cmd := if use_ninja then (cmd ++ ["--ninja"])%list else cmd in
  run cmd.

(** *** [tor_service] *)

Definition supported_actions : list string := ["start"; "stop"; "reload"; "status"].

(** [action in {"start", "stop", "reload", "status"}] *)
Definition is_supported (action : string) : bool :=
  existsb (String.eqb action) supported_actions.

Definition service_names : list string :=
  ["tor"; "tor.service"; "tor@default"; "tor@default.service"].

Definition hint : string := " (Tor may not be installed or systemctl may require sudo)".

(** The statements after the loop: all attempts failed. *)
Definition all_failed (last_result : option CommandResult) : CommandResult :=
  let stderr := match last_result with Some r => stderr r | None => "" end in
  mkCommandResult ""
                  (match last_result with Some r => stdout r | None => "" end)
                  (stderr ++ hint)
                  (match last_result with Some r => returncode r | None => 1%Z end).

(** The [for name in service_names] loop with what follows it;
    [last_result] is the variable of that name. *)
Fixpoint probe (action : string) (names : list string)
    (last_result : option CommandResult) : M CommandResult :=
  match names with
  | [] => ret (all_failed last_result)
  | name :: names' =>
      result <- run ["systemctl"; action; name] ;;
      if (returncode result =? 0)%Z then ret result
      else probe action names' (Some result)
  end.

Definition tor_service (action : string) : M CommandResult :=
  if negb (is_supported action) then
    ret (mkCommandResult "" "" ("Unsupported action " ++ action) 1%Z)
  else probe action service_names None.

(** The argument vectors of the probes of [names], in order. *)
Definition invocations (action : string) (names : list string) : list (list string) :=
  map (fun name => ["systemctl"; action; name]) names.

(** The state after [input(msg)] has consumed an event. *)
Definition after_input (st : State) (msg : string) (rest : list input_event) : State :=
  mkState (spawned st) rest (written st ++ [msg]).

(** The state after one more invocation. *)
Definition after_spawn (st : State) (cmd : list string) : State :=
  mkState (spawned st ++ [cmd]) (pending st) (written st).

(** The state after the probes of the first [k] names. *)
Definition after_probes (st : State) (action : string) (names : list string) (k : nat)
  : State :=
  mkState (spawned st ++ invocations action (firstn k names)) (pending st) (written st).

(** In the world [os], from the state [st], the probe of the name at
    index [i] ends with a non-zero exit status. *)
Definition probe_fails (os : OS) (st : State) (action : string) (names : list string)
    (i : nat) : Prop :=
  forall name, nth_error names i = Some name ->
    exists q, spawn os (spawned (after_probes st action names i)) ["systemctl"; action; name]
              = Exited q /\ proc_returncode q <> 0%Z.

(** *** The menus *)

(** [art] of [print_banner], a raw string: it starts and ends with a
    newline. *)
Definition art : string :=
  join nl
    [ "";
      "  ____                  _   _   _ ______ _______ ";
      " / ___|  ___ _ ____   _| \ | | | |  _ \ \_   _/ \";
      " \___ \ / _ \ '__\ \ / /  \| | | | |_) | | | |/  /";
      "  ___) |  __/ |   \ V /| |\  | |_| |  _ <  | | /\ \";
      " |____/ \___|_|    \_/ |_| \_|\___/|_| \_\ |_| \/ /";
      "    OpenNET by Majd Alzadjali";
      "" ].

Definition print_banner : M unit := print art.

(** A value of an [actions] dict: [(label, func)], [func] being [None]
    for a structural entry. *)
Definition MenuAction : Type := (string * option (M CommandResult))%type.

(** An [actions] dict, in insertion order. *)
Definition ActionRegistry : Type := list (string * MenuAction).

(** [actions.get(key)] *)
Fixpoint dict_get (key : string) (actions : ActionRegistry) : option MenuAction :=
  match actions with
  | [] => None
  | (k, v) :: actions' => if String.eqb key k then Some v else dict_get key actions'
  end.

(** [for key, (label, _) in actions.items(): print(f"{key}) {label}")] *)
Fixpoint print_options (actions : ActionRegistry) : M unit :=
  match actions with
  | [] => ret tt
  | (key, (label, _)) :: actions' =>
      print (key ++ ") " ++ label) ;;; print_options actions'
  end.

(** The [try] statement around a bound action. *)
Definition run_action (func : M CommandResult) : M unit :=
  try_except
    (result <- func ;;
     (* isinstance(result, CommandResult) holds for every action *)
     print_result result)
    (fun exc =>
       match exc with
       | KeyboardInterrupt => print (nl ++ "Cancelled." ++ nl)
       | _ => if is_Exception exc then print ("Error: " ++ exn_str exc ++ nl)
              else raise exc
       end).

(** How an iteration of a [while True] loop ends: [continue] (or the end
    of the body), or [return]. *)
Inductive ctl : Type := Continue | Return.

Fixpoint while_true (fuel : nat) (body : M ctl) : M unit :=
  match fuel with
  | O => fun _ st => (OutOfFuel, st)
  | S fuel' =>
      c <- body ;;
      match c with
      | Continue => while_true fuel' body
      | Return => ret tt
      end
  end.

(** The part of the loop bodies of [advanced_menu], [host_menu] and
    [device_menu] from [action = actions.get(choice)] on. *)
Definition dispatch (actions : ActionRegistry) (choice : string) : M ctl :=
  match dict_get choice actions with
  | None => print ("Invalid choice." ++ nl) ;;; ret Continue
  | Some (label, func) =>
      match func with
      | None => ret Return
      | Some f =>
          print ("== " ++ label ++ " ==") ;;;
          run_action f ;;;
          ret Continue
      end
  end.

Definition advanced_actions (binary : Path) : ActionRegistry :=
  [ ("1", ("List servers", Some (run [path_str binary; "list-servers"])));
    ("2", ("Show server details", Some (show_server binary)));
    ("3", ("Add server", Some (add_server binary)));
    ("4", ("Delete server", Some (delete_server binary)));
    ("5", ("List clients for server", Some (list_clients binary)));
    ("6", ("Add client", Some (add_client binary)));
    ("7", ("Generate key pair", Some (run [path_str binary; "genkey"])));
    ("b", ("Back", None)) ].

Definition advanced_menu_body (binary : Path) : M ctl :=
  print (nl ++ "Advanced") ;;;
  print_options (advanced_actions binary) ;;;
  choice <- prompt "Select option: " ;;
  if String.eqb (lower choice) "b" then print "" ;;; ret Return
  else dispatch (advanced_actions binary) choice.

Definition advanced_menu (fuel : nat) (binary : Path) : M unit :=
  while_true fuel (advanced_menu_body binary).

Definition host_actions (binary : Path) : ActionRegistry :=
  [ ("1", ("Start server (up)", Some (start_server binary)));
    ("2", ("Stop server (down)", Some (stop_server binary)));
    ("3", ("Reload server (down/up)", Some (reload_server binary)));
    ("4", ("Export client config", Some (export_client binary)));
    ("5", ("Advanced options", None));
    ("b", ("Back", None)) ].

Definition host_menu_body (fuel : nat) (binary : Path) : M ctl :=
  print (nl ++ "Host mode") ;;;
  print_options (host_actions binary) ;;;
  choice <- prompt "Select option: " ;;
  if String.eqb (lower choice) "b" then ret Return
  else if String.eqb choice "5" then advanced_menu fuel binary ;;; ret Continue
  else dispatch (host_actions binary) choice.

Definition host_menu (fuel : nat) (binary : Path) : M unit :=
  while_true fuel (host_menu_body fuel binary).

Definition device_actions (binary : Path) : ActionRegistry :=
  [ ("1", ("Connect as client", Some (connect_client binary)));
    ("2", ("Disconnect client", Some (disconnect_client binary)));
    ("3", ("Start Tor (ninja mode)", Some (tor_service "start")));
    ("4", ("Stop Tor", Some (tor_service "stop")));
    ("5", ("Reload Tor", Some (tor_service "reload")));
    ("6", ("Tor status", Some (tor_service "status")));
    ("b", ("Back", None)) ].

Definition device_menu_body (binary : Path) : M ctl :=
  print (nl ++ "Run on current device") ;;;
  print_options (device_actions binary) ;;;
  choice <- prompt "Select option: " ;;
  if String.eqb (lower choice) "b" then ret Return
  else dispatch (device_actions binary) choice.

Definition device_menu (fuel : nat) (binary : Path) : M unit :=
  while_true fuel (device_menu_body binary).

(** The body of the loop of [menu]. *)
Definition menu_body (fuel : nat) (binary : Path) : M ctl :=
  print (nl ++ "Choose mode:") ;;;
  print "1) Host (run/manage server)" ;;;
  print "2) Run on current device (client)" ;;;
  print "q) Quit" ;;;
  answer <- prompt "Select option: " ;;
  let choice := lower answer in
  if String.eqb choice "1" then host_menu fuel binary ;;; ret Continue
  else if String.eqb choice "2" then device_menu fuel binary ;;; ret Continue
  else if String.eqb choice "q" then print "Bye." ;;; ret Return
  else print ("Invalid choice." ++ nl) ;;; ret Continue.

(** [menu] *)
Definition menu (fuel : nat) (binary : Path) : M unit :=
  checked <- try_except
               (b <- ensure_binary binary ;; ret (Some b))
               (fun exc =>
                  match exc with
                  | FileNotFoundError _ => print (exn_str exc) ;;; ret None
                  | _ => raise exc
                  end) ;;
  match checked with
  | None => ret tt
  | Some binary =>
      print_banner ;;;
      go <- ask_yes_no "Press Y to continue or N to quit: " ;;
      if negb go then print "Declined. Bye."
      else while_true fuel (menu_body fuel binary)
  end.

(** [menu(find_binary())]; every iteration of a menu loop consumes an
    input event, which bounds the iterations. *)
Definition main : M unit :=
  fun os st =>
    (binary <- find_binary ;; menu (S (List.length (pending st))) binary) os st.

(** *** The menus as a state machine *)

Inductive MenuState : Type := Root | Host | Device | Advanced.

(** One iteration of the loop of a menu. *)
Definition menu_step (ms : MenuState) (fuel : nat) (binary : Path) : M ctl :=
  match ms with
  | Root => menu_body fuel binary
  | Host => host_menu_body fuel binary
  | Device => device_menu_body binary
  | Advanced => advanced_menu_body binary
  end.

(** The loop of a menu. *)
Definition menu_loop (ms : MenuState) (fuel : nat) (binary : Path) : M unit :=
  while_true fuel (menu_step ms fuel binary).

(** The keys bound in a state: the keys of its [actions] dict; for
    [Root], which has no dict, the keys its [if] chain compares with. *)
Definition bound_keys (ms : MenuState) (binary : Path) : list string :=
  match ms with
  | Root => ["1"; "2"; "q"]
  | Host => map fst (host_actions binary)
  | Device => map fst (device_actions binary)
  | Advanced => map fst (advanced_actions binary)
  end.

Definition is_bound (ms : MenuState) (binary : Path) (key : string) : bool :=
  existsb (String.eqb key) (bound_keys ms binary).

(** The key a state looks up for an input line: the line without the
    blanks around it; [Root] also puts it in lower case. *)
Definition key_of (ms : MenuState) (line : string) : string :=
  match ms with
  | Root => lower (strip line)
  | _ => strip line
  end.

(** An input that a state acts on: a bound key, or, in the three
    submenus, any spelling of the back key. *)
Definition recognized (ms : MenuState) (binary : Path) (line : string) : bool :=
  is_bound ms binary (key_of ms line)
  || match ms with
     | Root => false
     | _ => String.eqb (lower (strip line)) "b"
     end.

(** A computation only adds to what is written. *)
Definition writes_on {A : Type} (m : M A) : Prop :=
  forall os st, exists tail, written (snd (m os st)) = (written st ++ tail)%list.

(** [P] holds of every executable entry of a registry. *)
Definition registry_all (P : M CommandResult -> Prop) (actions : ActionRegistry) : Prop :=
  Forall (fun entry => match snd (snd entry) with
                       | Some f => P f
                       | None => True
                       end) actions.

(** Every executable entry of a registry only adds to what is written. *)
Definition registry_writes (actions : ActionRegistry) : Prop :=
  registry_all (fun f => writes_on f) actions.

(** What a state writes at the start of every iteration, before the
    prompt. *)
Definition option_lines (actions : ActionRegistry) : list string :=
  map (fun entry => printed (fst entry ++ ") " ++ fst (snd entry))) actions.

Definition display (ms : MenuState) (binary : Path) : list string :=
  match ms with
  | Root =>
      [ printed (nl ++ "Choose mode:");
        printed "1) Host (run/manage server)";
        printed "2) Run on current device (client)";
        printed "q) Quit" ]
  | Host => printed (nl ++ "Host mode") :: option_lines (host_actions binary)
  | Device => printed (nl ++ "Run on current device") :: option_lines (device_actions binary)
  | Advanced => printed (nl ++ "Advanced") :: option_lines (advanced_actions binary)
  end.

(** From a state with fewer than [n] input events pending, [m] does not
    reach the recursion bound of the embedding, and it leaves no more
    events pending than it found. *)
Definition bounded {A : Type} (n : nat) (m : M A) : Prop :=
  forall os st,
    List.length (pending st) < n ->
    fst (m os st) <> OutOfFuel /\
    List.length (pending (snd (m os st))) <= List.length (pending st).

(** The same for the body of a loop, which moreover consumes an event
    whenever it asks for another iteration. *)
Definition body_bounded (n : nat) (body : M ctl) : Prop :=
  forall os st,
    List.length (pending st) < n ->
    fst (body os st) <> OutOfFuel /\
    List.length (pending (snd (body os st))) <= List.length (pending st) /\
    (fst (body os st) = Ok Continue ->
     List.length (pending (snd (body os st))) < List.length (pending st)).

(** Every executable entry of a registry is bounded. *)
Definition registry_bounded (n : nat) (actions : ActionRegistry) : Prop :=
  registry_all (fun f => bounded n f) actions.

(** A computation starts by writing the pieces [d]. *)
Definition starts_with {A : Type} (d : list string) (m : M A) : Prop :=
  forall os st, exists tail, written (snd (m os st)) = (written st ++ d ++ tail)%list.

(** The state after a state [ms] has shown its options, read a line and
    answered that the choice is invalid. *)
Definition after_invalid (ms : MenuState) (binary : Path) (st : State)
    (rest : list input_event) : State :=
  mkState (spawned st) rest
          (written st ++ display ms binary
           ++ ["Select option: "; printed ("Invalid choice." ++ nl)]).

(** *** Vocabulary of the properties beyond the menus' self-loop *)

(** The registry of a state; [Root] has none. *)
Definition registry (ms : MenuState) (binary : Path) : ActionRegistry :=
  match ms with
  | Root => []
  | Host => host_actions binary
  | Device => device_actions binary
  | Advanced => advanced_actions binary
  end.

(** The three states entered from another one. *)
Definition is_submenu (ms : MenuState) : bool :=
  match ms with Root => false | _ => true end.

(** The transitions into a submenu: the state, the key, the submenu. *)
Definition transitions : list (MenuState * string * MenuState) :=
  [ (Root, "1", Host); (Root, "2", Device); (Host, "5", Advanced) ].

(** The key that leaves a state, in lower case: quit in [Root], back in
    the submenus. *)
Definition leave_key (ms : MenuState) : string :=
  match ms with Root => "q" | _ => "b" end.

(** What a state writes when it is left: [Root] a farewell, [Advanced] an
    empty line, [Host] and [Device] nothing. *)
Definition farewell (ms : MenuState) : list string :=
  match ms with
  | Root => [printed "Bye."]
  | Advanced => [printed ""]
  | _ => []
  end.

(** The state after a state [ms] has shown its options, read the key
    that leaves it and written its farewell. *)
Definition after_leave (ms : MenuState) (binary : Path) (st : State)
    (rest : list input_event) : State :=
  mkState (spawned st) rest
          (written st ++ display ms binary ++ ["Select option: "] ++ farewell ms).

(** The first words of the argument vectors that the leaf actions give
    to the external binary. *)
Definition subcommands : list string :=
  [ "list-servers"; "show"; "add-server"; "delete-server"; "list-clients";
    "add-client"; "export-client"; "genkey"; "up"; "down"; "connect"; "disconnect" ].

(** An argument vector that the program may hand to [subprocess.run]: the
    binary with a subcommand, or [systemctl] with a supported action and
    a candidate unit. *)
Definition allowed_command (binary : Path) (cmd : list string) : Prop :=
  (exists sub args, cmd = path_str binary :: sub :: args /\ In sub subcommands)
  \/ (exists action name,
         In action supported_actions /\ In name service_names /\
         cmd = ["systemctl"; action; name]).

(** A computation spawns nothing but commands that satisfy [ok], and
    forgets no invocation. *)
Definition spawns_only (ok : list string -> Prop) {A : Type} (m : M A) : Prop :=
  forall os st, exists new,
    spawned (snd (m os st)) = (spawned st ++ new)%list /\ Forall ok new.

(** The leaf actions that ask their questions and then run the binary
    once: the action, its questions in order, and the argument vector as
    a function of the trimmed answers. *)
Definition leaf_table (binary : Path)
  : list (M CommandResult * list string * (list string -> list string)) :=
  let arg := fun (answers : list string) (i : nat) => nth i answers "" in
  let bin := path_str binary in
  [ (show_server binary, ["Server name: "],
     fun a => [bin; "show"; "server"; arg a 0]);
    (add_server binary, ["Server name: "; "Endpoint (ip:port): "],
     fun a => [bin; "add-server"; "--name"; arg a 0; "--endpoint"; arg a 1]);
    (delete_server binary, ["Server name to delete: "],
     fun a => [bin; "delete-server"; arg a 0]);
    (list_clients binary, ["Server name: "],
     fun a => [bin; "list-clients"; "--server"; arg a 0]);
    (add_client binary, ["Server name: "; "Client name: "],
     fun a => [bin; "add-client"; "--server"; arg a 0; "--client"; arg a 1]);
    (export_client binary,
     ["Server name: "; "Client name: "; "Output path (e.g., ~/client.conf): "],
     fun a => [bin; "export-client"; "--server"; arg a 0; "--client"; arg a 1;
               "--output"; arg a 2]);
    (start_server binary, ["Server name: "],
     fun a => [bin; "up"; arg a 0]);
    (stop_server binary, ["Server name: "],
     fun a => [bin; "down"; arg a 0]) ].

(** Every action that asks questions, with the number of its questions. *)
Definition prompting_actions (binary : Path) : list (M CommandResult * nat) :=
  [ (show_server binary, 1); (add_server binary, 2); (delete_server binary, 1);
    (list_clients binary, 1); (add_client binary, 2); (export_client binary, 3);
    (start_server binary, 1); (stop_server binary, 1); (reload_server binary, 1);
    (connect_client binary, 3); (disconnect_client binary, 3) ].

(** A text without a blank character at either end. *)
Definition trimmed (s : string) : Prop :=
  (forall c r, s = String c r -> isspace c = false) /\
  (forall r c, s = r ++ String c "" -> isspace c = false).


(** The part of the body of a menu loop after the prompt, as a function
    of the text that [prompt] returned. *)
Definition choose (ms : MenuState) (fuel : nat) (binary : Path) (answer : string)
  : M ctl :=
  match ms with
  | Root =>
      let choice := lower answer in
      if String.eqb choice "1" then host_menu fuel binary ;;; ret Continue
      else if String.eqb choice "2" then device_menu fuel binary ;;; ret Continue
      else if String.eqb choice "q" then print "Bye." ;;; ret Return
      else print ("Invalid choice." ++ nl) ;;; ret Continue
  | Host =>
      if String.eqb (lower answer) "b" then ret Return
      else if String.eqb answer "5" then advanced_menu fuel binary ;;; ret Continue
      else dispatch (host_actions binary) answer
  | Device =>
      if String.eqb (lower answer) "b" then ret Return
      else dispatch (device_actions binary) answer
  | Advanced =>
      if String.eqb (lower answer) "b" then print "" ;;; ret Return
      else dispatch (advanced_actions binary) answer
  end.

(** The state after a menu has shown the options of [ms]. *)
Definition after_display (ms : MenuState) (binary : Path) (st : State) : State :=
  mkState (spawned st) (pending st) (written st ++ display ms binary).

(** The text that [run_action] writes for an exception it catches. *)
Definition caught_notice (e : exn) : string :=
  match e with
  | KeyboardInterrupt => printed (nl ++ "Cancelled." ++ nl)
  | _ => printed ("Error: " ++ exn_str e ++ nl)
  end.

(** The state after a submenu has shown its options, read a line and
    written the label of the action it found. *)
Definition after_label (ms : MenuState) (binary : Path) (st : State)
    (rest : list input_event) (label : string) : State :=
  mkState (spawned st) rest
          (written st ++ display ms binary
           ++ ["Select option: "; printed ("== " ++ label ++ " ==")]).

End Program.

(** ** Concrete worlds, to run the program on *)

Module Fakes.

(** The directory part of a path written with slashes. *)
Fixpoint dirname (p : string) : string :=
  match p with
  | EmptyString => EmptyString
  | String c r =>
      if char_in "/"%char r then String c (dirname r) else EmptyString
  end.

(** Paths as plain strings. *)
Definition plain_paths : Pathlib :=
  {| Path := string;
     path_of := fun s => s;
     path_str := fun p => p;
     path_parent := dirname;
     path_div := fun p name => p ++ "/" ++ name;
     script_file := "/opt/wirestack/opennet/scripts/tui.py" |}.

(** A service manager that knows the units [good] only: exit status 0
    for them, [fail_code] with a message on standard error for any other
    name.  The override variable is set to [override]. *)
Definition fake_os (good : list string) (fail_code : Z) (override : option string) : OS :=
  {| spawn := fun _ cmd =>
       let unit := nth 2 cmd "" in
       if existsb (String.eqb unit) good
       then Exited (mkCompletedProcess ("active" ++ nl) "" 0%Z)
       else Exited (mkCompletedProcess "" ("Unit " ++ unit ++ " not found." ++ nl) fail_code);
     environ := fun name =>
       if String.eqb name "OPENNET_BIN" then override else None;
     file_exists := fun _ => ExistsReturns true |}.

(** An external binary whose [down] ends with [down_code] and whose other
    commands succeed. *)
Definition fake_binary (down_code : Z) : OS :=
  {| spawn := fun _ cmd =>
       if String.eqb (nth 1 cmd "") "down"
       then Exited (mkCompletedProcess "" ("wg-quick: down failed" ++ nl) down_code)
       else Exited (mkCompletedProcess ("ok" ++ nl) "" 0%Z);
     environ := fun _ => None;
     file_exists := fun _ => ExistsReturns true |}.

(** The state of a program that starts with [events] on its terminal. *)
Definition fresh (events : list input_event) : State := mkState [] events [].

(** The hint of the failure result in the words of the specification. *)
Definition spec_hint : string :=
  "service may not be installed, or elevated privileges may be required".

(** [sub in s] *)
Definition contains (s sub : string) : bool :=
  match String.index 0 sub s with Some _ => true | None => false end.

End Fakes.

(** ** The definitions on small inputs *)

Example command_text_plain :
  command_text ["systemctl"; "start"; "tor@default"] = "systemctl start tor@default".
Proof. reflexivity. Qed.

Example command_text_quoted :
  command_text ["opennet"; "up"; "my server"; ""] = "opennet up 'my server' ''".
Proof. reflexivity. Qed.

Example split_quoted :
  Shlex.split "opennet up 'my server' ''" = Ok ["opennet"; "up"; "my server"; ""].
Proof. reflexivity. Qed.

Example split_unclosed :
  Shlex.split "down 'wg0" = Raise (ValueError "No closing quotation").
Proof. reflexivity. Qed.

Example strip_lower : lower (strip "  Yes, go ") = "yes, go".
Proof. reflexivity. Qed.

Example tor_service_third :
  fst (tor_service "start" (Fakes.fake_os ["tor@default"] 5 None) (Fakes.fresh []))
  = Ok (mkCommandResult "systemctl start tor@default" "active" "" 0).
Proof. reflexivity. Qed.

(** A session: consent, Host, an unknown key, back, quit. *)
Example main_session :
  let end_state :=
    snd (@main Fakes.plain_paths (Fakes.fake_binary 0)
           (Fakes.fresh [Line "y"; Line "1"; Line "x"; Line "b"; Line "q"])) in
  pending end_state = [] /\ spawned end_state = [] /\
  List.last (written end_state) "" = printed "Bye.".
Proof. repeat split. Qed.
(** ** Facts on strings *)

Section StringFacts.

Lemma append_nil_r (s : string) : s ++ "" = s.
Proof. induction s as [|c s IH]; simpl; [reflexivity | now rewrite IH]. Qed.

Lemma append_assoc (s t u : string) : (s ++ t) ++ u = s ++ (t ++ u).
Proof. induction s as [|c s IH]; simpl; [reflexivity | now rewrite IH]. Qed.

Lemma append_snoc (s t : string) (c : ascii) :
  (s ++ String c "") ++ t = s ++ String c t.
Proof. now rewrite append_assoc. Qed.

Lemma length_append (s t : string) :
  String.length (s ++ t) = String.length s + String.length t.
Proof. induction s as [|c s IH]; simpl; [reflexivity | now rewrite IH]. Qed.

End StringFacts.

(** ** The lexer on quoted words *)

Module ShlexFacts.
Import Shlex.

Lemma safe_is_plain (c : ascii) :
  is_safe c = true ->
  char_in c whitespace = false /\ char_in c quotes = false /\ char_in c escape = false.
Proof.
  destruct c as [[|] [|] [|] [|] [|] [|] [|] [|]];
    intros H; vm_compute in H; try discriminate H; vm_compute; auto.
Qed.

(** One iteration of the loop in each state, as equations. *)
Lemma step_word (c : ascii) (rest token : string) (quoted : bool) (esc : lex_state) :
  read_token_loop (String c rest) st_word token quoted esc =
  if char_in c whitespace then
    if truthy token || quoted then emit token quoted st_space rest
    else read_token_loop rest st_space token quoted esc
  else if char_in c quotes then read_token_loop rest (st_quote c) token quoted esc
  else if char_in c escape then read_token_loop rest (st_escape c) token quoted st_word
  else read_token_loop rest st_word (token ++ String c "") quoted esc.
Proof. reflexivity. Qed.

Lemma step_quote (c q : ascii) (rest token : string) (quoted : bool) (esc : lex_state) :
  read_token_loop (String c rest) (st_quote q) token quoted esc =
  if Ascii.eqb c q then read_token_loop rest st_word token true esc
  else if char_in c escape && char_in q escapedquotes
       then read_token_loop rest (st_escape c) token true (st_quote q)
  else read_token_loop rest (st_quote q) (token ++ String c "") true esc.
Proof. reflexivity. Qed.

Lemma step_space (c : ascii) (rest token : string) (quoted : bool) (esc : lex_state) :
  read_token_loop (String c rest) st_space token quoted esc =
  if char_in c whitespace then
    if truthy token || quoted then emit token quoted st_space rest
    else read_token_loop rest st_space token quoted esc
  else if char_in c escape then read_token_loop rest (st_escape c) token quoted st_word
  else if is_wordchar c then read_token_loop rest st_word (String c "") quoted esc
  else if char_in c quotes then read_token_loop rest (st_quote c) token quoted esc
  else read_token_loop rest st_word (String c "") quoted esc.
Proof. reflexivity. Qed.

(** A run of safe characters in the word state is appended to the token. *)
Lemma word_run (s rest token : string) (quoted : bool) (esc : lex_state) :
  all_safe s = true ->
  read_token_loop (s ++ rest) st_word token quoted esc =
  read_token_loop rest st_word (token ++ s) quoted esc.
Proof.
  revert token. induction s as [|c s IH]; intros token Hs.
  - now rewrite append_nil_r.
  - simpl in Hs. apply andb_prop in Hs as [Hc Hs].
    destruct (safe_is_plain c Hc) as (Hw & Hq & He).
    change (String c s ++ rest) with (String c (s ++ rest)).
    rewrite step_word, Hw, Hq, He, IH by exact Hs.
    now rewrite append_snoc.
Qed.

(** Inside single quotes, the escaped body of [quote] reads back as the
    original characters, up to the closing quote. *)
Lemma quote_run (s rest token : string) (quoted : bool) (esc : lex_state) :
  read_token_loop (replace_char SQ sq_escaped s ++ String SQ rest)
                  (st_quote SQ) token quoted esc =
  read_token_loop rest st_word (token ++ s) true esc.
Proof.
  revert token quoted. induction s as [|c s IH]; intros token quoted.
  - simpl. rewrite append_nil_r. reflexivity.
  - cbn [replace_char]. destruct (Ascii.eqb c SQ) eqn:Hc.
    + apply Ascii.eqb_eq in Hc. subst c.
      rewrite append_assoc.
      change (sq_escaped ++ ?x) with
        (String SQ (String DQ (String SQ (String DQ (String SQ x))))).
      rewrite step_quote. change (Ascii.eqb SQ SQ) with true. cbv iota.
      rewrite step_word.
      change (char_in DQ whitespace) with false.
      change (char_in DQ quotes) with true. cbv iota.
      rewrite step_quote.
      change (Ascii.eqb SQ DQ) with false.
      change (char_in SQ escape) with false. cbv iota. simpl andb. cbv iota.
      rewrite step_quote. change (Ascii.eqb DQ DQ) with true. cbv iota.
      rewrite step_word.
      change (char_in SQ whitespace) with false.
      change (char_in SQ quotes) with true. cbv iota.
      rewrite IH. now rewrite append_snoc.
    + change (String c ?x ++ ?y) with (String c (x ++ y)).
      rewrite step_quote, Hc.
      change (char_in SQ escapedquotes) with false.
      rewrite andb_false_r, IH. now rewrite append_snoc.
Qed.

(** After the body of a quoted word, at the end of the text or before
    the separating blank, the token is emitted. *)
Lemma word_end (token : string) (quoted : bool) (esc : lex_state) :
  truthy token || quoted = true ->
  read_token_loop "" st_word token quoted esc = Token (Some token) st_eof "".
Proof.
  intros H. simpl. unfold emit.
  destruct quoted; [reflexivity|]. rewrite orb_false_r in H. now rewrite H.
Qed.

Lemma word_blank (token rest : string) (quoted : bool) (esc : lex_state) :
  truthy token || quoted = true ->
  read_token_loop (String " " rest) st_word token quoted esc =
  Token (Some token) st_space rest.
Proof.
  intros H. rewrite step_word. change (char_in " " whitespace) with true.
  cbv iota. rewrite H. unfold emit.
  destruct quoted; [reflexivity|]. rewrite orb_false_r in H. now rewrite H.
Qed.

(** From the blank state, the quoted form of [s] is read up to the word
    state with [s] as the token. *)
Lemma quote_read (s rest : string) :
  exists quoted,
    truthy s || quoted = true /\
    read_token_loop (quote s ++ rest) st_space "" false st_space =
    read_token_loop rest st_word s quoted st_space.
Proof.
  unfold quote. destruct s as [|c s].
  - exists true. split; [reflexivity|]. reflexivity.
  - cbn [truthy negb]. destruct (all_safe (String c s)) eqn:Hs.
    + exists false. split; [reflexivity|].
      cbn [all_safe] in Hs. apply andb_prop in Hs as [Hc Hs].
      destruct (safe_is_plain c Hc) as (Hw & Hq & He).
      change (String c s ++ rest) with (String c (s ++ rest)).
      rewrite step_space, Hw, He, Hq.
      assert (E : (if is_wordchar c
                   then read_token_loop (s ++ rest) st_word (String c "") false st_space
                   else read_token_loop (s ++ rest) st_word (String c "") false st_space)
                  = read_token_loop (s ++ rest) st_word (String c "") false st_space)
        by (destruct (is_wordchar c); reflexivity).
      rewrite E. now rewrite word_run.
    + exists true. split; [reflexivity|].
      rewrite !append_assoc.
      change (String SQ "" ++ ?x) with (String SQ x).
      rewrite step_space.
      change (char_in SQ whitespace) with false.
      change (char_in SQ escape) with false.
      change (is_wordchar SQ) with false.
      change (char_in SQ quotes) with true. cbv iota.
      change (String SQ "" ++ rest) with (String SQ rest).
      apply (quote_run (String c s) rest "" false st_space).
Qed.

Lemma read_quote_last (s : string) :
  read_token (quote s) st_space = Token (Some s) st_eof "".
Proof.
  unfold read_token. destruct (quote_read s "") as (q & Hq & E).
  rewrite append_nil_r in E. rewrite E. now apply word_end.
Qed.

Lemma read_quote_blank (s rest : string) :
  read_token (quote s ++ String " " rest) st_space = Token (Some s) st_space rest.
Proof.
  unfold read_token. destruct (quote_read s (String " " rest)) as (q & Hq & E).
  rewrite E. now apply word_blank.
Qed.

(** The whole command text reads back as the argument vector, with any
    recursion bound above the number of arguments. *)
Lemma tokens_command_text (cmd : list string) (fuel : nat) :
  List.length cmd < fuel ->
  tokens fuel (command_text cmd) st_space = Ok cmd.
Proof.
  unfold command_text, join. revert fuel.
  induction cmd as [|x l IH]; intros fuel Hf.
  - destruct fuel; [lia|]. reflexivity.
  - destruct fuel as [|fuel]; [lia|]. cbn [List.length] in Hf.
    cbn [map String.concat tokens]. destruct l as [|y l].
    + cbn [map]. rewrite read_quote_last.
      destruct fuel; [lia|]. reflexivity.
    + change (map quote (y :: l)) with (quote y :: map quote l) in *.
      cbv beta iota.
      change (" " ++ ?z) with (String " " z).
      rewrite read_quote_blank.
      rewrite IH by (cbn [List.length] in *; lia). reflexivity.
Qed.

Lemma quote_length (s : string) : 1 <= String.length (quote s).
Proof.
  unfold quote. destruct s as [|c s]; cbn [truthy negb].
  - simpl. lia.
  - destruct (all_safe (String c s)); simpl; lia.
Qed.

Lemma command_text_length (cmd : list string) :
  List.length cmd <= String.length (command_text cmd).
Proof.
  unfold command_text, join. induction cmd as [|x l IH]; [simpl; lia|].
  cbn [map String.concat List.length]. pose proof (quote_length x) as Hx.
  destruct l as [|y l]; [simpl; lia|].
  change (map quote (y :: l)) with (quote y :: map quote l) in *.
  cbv beta iota.
  rewrite !length_append. cbn [List.length] in IH |- *.
  change (String.length " ") with 1. lia.
Qed.

(** *** The split is total: the bound on the calls of [read_token] is
        never reached *)

Lemma emit_inv (token : string) (quoted : bool) (state : lex_state) (rest : string)
    (r : option string) (st' : lex_state) (rest' : string) :
  emit token quoted state rest = Token r st' rest' -> st' = state /\ rest' = rest.
Proof. unfold emit. intros [= _ <- <-]. auto. Qed.

Lemma read_token_loop_rest (instream : string) :
  forall state token quoted esc r st' rest,
    read_token_loop instream state token quoted esc = Token r st' rest ->
    String.length rest <= String.length instream /\ (st' = st_space \/ st' = st_eof).
Proof.
  induction instream as [|c inp IH]; intros state token quoted esc r st' rest E.
  - destruct state; cbn in E; try discriminate E;
      apply emit_inv in E as [-> ->]; cbn; auto.
  - cbn [String.length].
    assert (Hrec : forall state token quoted esc,
               read_token_loop inp state token quoted esc = Token r st' rest ->
               String.length rest <= S (String.length inp)
               /\ (st' = st_space \/ st' = st_eof)).
    { intros s t q e E'. destruct (IH _ _ _ _ _ _ _ E') as [Hl Hs]. split; [lia | exact Hs]. }
    assert (Hemit : forall token quoted state,
               (state = st_space \/ state = st_eof) ->
               emit token quoted state inp = Token r st' rest ->
               String.length rest <= S (String.length inp)
               /\ (st' = st_space \/ st' = st_eof)).
    { intros t q s Hs E'. apply emit_inv in E' as [-> ->]. split; [lia | exact Hs]. }
    destruct state; cbn [read_token_loop] in E;
      repeat match type of E with
             | context [if ?b then _ else _] => destruct b
             end;
      first [ apply Hrec in E; exact E
            | apply Hemit in E; [exact E | auto] ].
Qed.

Lemma tokens_total (fuel : nat) :
  forall instream state,
    state = st_space \/ state = st_eof ->
    String.length instream < fuel ->
    tokens fuel instream state <> OutOfFuel.
Proof.
  induction fuel as [|fuel IH]; intros instream state Hstate Hfuel; [lia|].
  cbn [tokens].
  destruct (read_token instream state) as [e|[t|] st' rest] eqn:E; try discriminate.
  assert (Hnext : tokens fuel rest st' <> OutOfFuel).
  { unfold read_token in E.
    destruct (read_token_loop_rest _ _ _ _ _ _ _ _ E) as [Hlen Hst'].
    apply IH; [exact Hst'|].
    destruct instream as [|c inp].
    - destruct Hstate as [-> | ->]; discriminate E.
    - destruct Hstate as [-> | ->]; [|discriminate E].
      cbn [String.length] in Hfuel.
      enough (String.length rest <= String.length inp) by lia.
      cbn [read_token_loop] in E.
      repeat match type of E with
             | context [if ?b then _ else _] => destruct b
             end;
        first [ apply read_token_loop_rest in E; tauto
              | apply emit_inv in E as [_ ->]; lia ]. }
  destruct (tokens fuel rest st'); [discriminate | discriminate | contradiction].
Qed.

(** [shlex.split] ends on every text: with the words, or with the
    [ValueError] of an unclosed quote or a trailing escape. *)
Lemma split_total (s : string) : split s <> OutOfFuel.
Proof. unfold split. apply tokens_total; [now left | lia]. Qed.

End ShlexFacts.

(** C4. Round trip of the command text: for every argument vector, the
    text that [run] puts in [CommandResult.command] (every argument quoted
    by [shlex.quote], joined by single blanks) is split by [shlex.split]
    into exactly that argument vector; the split neither fails nor stops
    short.  This holds of the command text of every result that [run]
    returns, in every world and from every state, of the result built
    from any completed process, and of the text itself. *)
Theorem command_text_roundtrip (os : OS) (cmd : list string) (st : State) :
  (forall r, fst (run cmd os st) = Ok r -> Shlex.split (command r) = Ok cmd) /\
  (forall p, Shlex.split (command (completed cmd p)) = Ok cmd) /\
  Shlex.split (command_text cmd) = Ok cmd.
Proof.
  assert (Hsplit : Shlex.split (command_text cmd) = Ok cmd).
  { unfold Shlex.split. apply ShlexFacts.tokens_command_text.
    pose proof (ShlexFacts.command_text_length cmd). lia. }
  split; [|split; [intros p; exact Hsplit | exact Hsplit]].
  intros r Hr. unfold run, bind, subprocess_run, ret in Hr.
  destruct (spawn os (spawned st) cmd) as [p|e]; cbn in Hr; [|discriminate Hr].
  injection Hr as <-. exact Hsplit.
Qed.

(** A result of [run] whose arguments need quoting: a blank, an
    apostrophe, an empty argument. *)
Lemma command_text_roundtrip_witness :
  exists r,
    fst (run ["opennet"; "show"; "server"; "it's mine"; ""]
             (Fakes.fake_binary 0) (Fakes.fresh [])) = Ok r /\
    Shlex.split (command r) = Ok ["opennet"; "show"; "server"; "it's mine"; ""].
Proof.
  eexists. split; [reflexivity|].
  exact (proj1 (command_text_roundtrip (Fakes.fake_binary 0)
                  ["opennet"; "show"; "server"; "it's mine"; ""] (Fakes.fresh []))
               _ eq_refl).
Defined.

(** ** The process runner *)

Local Open Scope py_scope.

Lemma bind_print {A : Type} (s : string) (k : unit -> M A) (os : OS) (st : State) :
  bind (print s) k os st
  = k tt os (mkState (spawned st) (pending st) (written st ++ [printed s])).
Proof. reflexivity. Qed.

Section Runner.

Variable os : OS.

Lemma bind_ok {A B : Type} (m : M A) (k : A -> M B) (st st' : State) (a : A) :
  m os st = (Ok a, st') -> bind m k os st = k a os st'.
Proof. intros E. unfold bind. now rewrite E. Qed.

Lemma bind_raise {A B : Type} (m : M A) (k : A -> M B) (st st' : State) (e : exn) :
  m os st = (Raise e, st') -> bind m k os st = (Raise e, st').
Proof. intros E. unfold bind. now rewrite E. Qed.

Lemma run_exited (cmd : list string) (st : State) (p : CompletedProcess) :
  spawn os (spawned st) cmd = Exited p ->
  run cmd os st = (Ok (completed cmd p), after_spawn st cmd).
Proof. intros E. unfold run, bind, subprocess_run. now rewrite E. Qed.

Lemma run_raises (cmd : list string) (st : State) (e : exn) :
  spawn os (spawned st) cmd = SpawnRaises e ->
  run cmd os st = (Raise e, after_spawn st cmd).
Proof. intros E. unfold run, bind, subprocess_run. now rewrite E. Qed.

(** [run] never gives a result with another command text, and always
    records its invocation. *)
Lemma run_inv (cmd : list string) (st : State) :
  snd (run cmd os st) = after_spawn st cmd /\
  (forall r, fst (run cmd os st) = Ok r ->
             exists p, spawn os (spawned st) cmd = Exited p /\ r = completed cmd p) /\
  fst (run cmd os st) <> OutOfFuel.
Proof.
  destruct (spawn os (spawned st) cmd) as [p|e] eqn:E.
  - rewrite (run_exited _ _ _ E). cbn. repeat split; [|discriminate].
    intros r [= <-]. now exists p.
  - rewrite (run_raises _ _ _ E). cbn. repeat split; discriminate.
Qed.

(** *** The probes of [tor_service] *)

Lemma after_spawn_invocations (st : State) (action name : string) (names : list string) :
  (spawned (after_spawn st ["systemctl"; action; name]) ++ invocations action names
   = spawned st ++ invocations action (name :: names))%list.
Proof. cbn. now rewrite <- app_assoc. Qed.

Lemma probe_spawned (action : string) (names : list string) :
  forall (last : option CommandResult) (st : State),
  exists k, k <= List.length names /\
    pending (snd (probe action names last os st)) = pending st /\
    written (snd (probe action names last os st)) = written st /\
    (spawned (snd (probe action names last os st))
     = spawned st ++ invocations action (firstn k names))%list.
Proof.
  induction names as [|name names IH]; intros last st.
  - exists 0. cbn. rewrite app_nil_r. auto.
  - cbn [probe].
    destruct (spawn os (spawned st) ["systemctl"; action; name]) as [p|e] eqn:E.
    + rewrite (bind_ok _ _ _ _ _ (run_exited _ _ _ E)).
      destruct (returncode (completed ["systemctl"; action; name] p) =? 0)%Z.
      * exists 1. cbn. repeat split; auto. lia.
      * destruct (IH (Some (completed ["systemctl"; action; name] p))
                     (after_spawn st ["systemctl"; action; name]))
          as (k & Hk & Hp & Hw & Hs).
        exists (S k). rewrite Hp, Hw, Hs. cbn [List.length firstn].
        rewrite after_spawn_invocations. repeat split; auto. lia.
    + rewrite (bind_raise _ _ _ _ _ (run_raises _ _ _ E)).
      exists 1. cbn. repeat split; auto. lia.
Qed.

Lemma after_probes_S (st : State) (action name : string) (names : list string) (k : nat) :
  after_probes (after_spawn st ["systemctl"; action; name]) action names k
  = after_probes st action (name :: names) (S k).
Proof.
  unfold after_probes. cbn [firstn pending written after_spawn].
  now rewrite after_spawn_invocations.
Qed.

Lemma after_probes_0 (st : State) (action : string) (names : list string) :
  after_probes st action names 0 = st.
Proof. unfold after_probes. cbn. rewrite app_nil_r. now destruct st. Qed.

Lemma probe_fails_tail (st : State) (action name : string) (names : list string) (i : nat) :
  probe_fails os st action (name :: names) (S i) ->
  probe_fails os (after_spawn st ["systemctl"; action; name]) action names i.
Proof.
  intros Hf n Hn. rewrite after_probes_S. now apply Hf.
Qed.

Lemma probe_first_success (action : string) (k : nat) :
  forall (names : list string) (last : option CommandResult) (st : State)
         (name : string) (p : CompletedProcess),
    nth_error names k = Some name ->
    (forall i, i < k -> probe_fails os st action names i) ->
    spawn os (spawned (after_probes st action names k)) ["systemctl"; action; name]
      = Exited p ->
    proc_returncode p = 0%Z ->
    probe action names last os st
      = run ["systemctl"; action; name] os (after_probes st action names k)
    /\ probe action names last os st
      = (Ok (completed ["systemctl"; action; name] p), after_probes st action names (S k)).
Proof.
  induction k as [|k IH]; intros names last st name p Hn Hfail Hp Hz.
  - destruct names as [|n0 names]; [discriminate|]. injection Hn as ->.
    rewrite after_probes_0 in *. cbn [probe].
    rewrite (bind_ok _ _ _ _ _ (run_exited _ _ _ Hp)).
    rewrite (run_exited _ _ _ Hp).
    cbn [completed returncode]. rewrite Hz. cbn.
    unfold after_probes, after_spawn. auto.
  - destruct names as [|n0 names]; [discriminate|]. cbn [nth_error] in Hn.
    destruct (Hfail 0 (Nat.lt_0_succ k) n0 eq_refl) as (q & Hq & Hnz).
    rewrite after_probes_0 in Hq. cbn [probe].
    rewrite (bind_ok _ _ _ _ _ (run_exited _ _ _ Hq)).
    cbn [completed returncode].
    destruct (Z.eqb_spec (proc_returncode q) 0) as [Hc|_]; [contradiction|].
    rewrite <- !after_probes_S in *.
    apply IH; auto.
    intros i Hi. apply probe_fails_tail. apply Hfail. lia.
Qed.

Lemma last_cons {A : Type} (l : list A) :
  forall a d, List.last (a :: l) d = List.last l a.
Proof.
  induction l as [|b l IH]; intros a d; [reflexivity|].
  change (List.last (a :: b :: l) d) with (List.last (b :: l) d).
  now rewrite !IH.
Qed.

Lemma probe_nil (action : string) (last : option CommandResult) (st : State) :
  probe action [] last os st = (Ok (all_failed last), st).
Proof. reflexivity. Qed.

(** When every probe fails, the result is built from the last one. *)
Lemma probe_all_fail (action : string) (names : list string) :
  forall (n0 : string) (last : option CommandResult) (st : State),
    (forall i, probe_fails os st action (n0 :: names) i) ->
    exists q,
      spawn os (spawned (after_probes st action (n0 :: names) (List.length names)))
            ["systemctl"; action; List.last names n0] = Exited q /\
      proc_returncode q <> 0%Z /\
      probe action (n0 :: names) last os st
      = (Ok (all_failed (Some (completed ["systemctl"; action; List.last names n0] q))),
         after_probes st action (n0 :: names) (S (List.length names))).
Proof.
  induction names as [|n1 names IH]; intros n0 last st Hfail;
    destruct (Hfail 0 n0 eq_refl) as (q & Hq & Hnz);
    rewrite after_probes_0 in Hq.
  - exists q. change (List.length (@nil string)) with 0.
    rewrite after_probes_0. repeat split; auto.
    cbn [probe]. rewrite (bind_ok _ _ _ _ _ (run_exited _ _ _ Hq)).
    cbn [completed returncode].
    destruct (Z.eqb_spec (proc_returncode q) 0) as [Hc|_]; [contradiction|].
    unfold after_probes, after_spawn, ret. cbn. reflexivity.
  - destruct (IH n1 (Some (completed ["systemctl"; action; n0] q))
                (after_spawn st ["systemctl"; action; n0]))
      as (q' & Hq' & Hnz' & E).
    { intros i. apply probe_fails_tail, Hfail. }
    rewrite !after_probes_S in *.
    exists q'. rewrite last_cons. cbn [List.length]. repeat split; auto.
    rewrite <- E.
    change (probe action (n0 :: n1 :: names) last os st)
      with (bind (run ["systemctl"; action; n0])
                 (fun result => if (returncode result =? 0)%Z then ret result
                                else probe action (n1 :: names) (Some result)) os st).
    rewrite (bind_ok _ _ _ _ _ (run_exited _ _ _ Hq)).
    cbn [completed returncode].
    destruct (Z.eqb_spec (proc_returncode q) 0) as [Hc|_]; [contradiction|].
    reflexivity.
Qed.

End Runner.

(** ** The service controller *)

Lemma is_supported_In (action : string) :
  is_supported action = true <-> In action supported_actions.
Proof.
  unfold is_supported. rewrite existsb_exists. split.
  - intros (x & Hx & E). apply String.eqb_eq in E. now subst.
  - intros Hin. exists action. split; [assumption | apply String.eqb_refl].
Qed.

Lemma tor_service_supported (os : OS) (action : string) (st : State) :
  In action supported_actions ->
  tor_service action os st = probe action service_names None os st.
Proof.
  intros Hin. apply is_supported_In in Hin. unfold tor_service. now rewrite Hin.
Qed.

Lemma state_eq (st st' : State) :
  spawned st = spawned st' -> pending st = pending st' -> written st = written st' ->
  st = st'.
Proof. destruct st, st'; cbn; intros; subst; reflexivity. Qed.

(** C1. First success wins.  For a supported action, [tor_service] hands
    to the service manager the candidates ["tor"], ["tor.service"],
    ["tor@default"], ["tor@default.service"] in this order, one at a time,
    and at most the four of them; and when the candidate at index [k]
    (counting from 0) is the first whose invocation ends with exit status
    0, the result of [tor_service] is the very result of that call of
    [run], after exactly [k + 1] invocations. *)
Theorem tor_service_first_success (os : OS) (action : string) (st : State) :
  In action supported_actions ->
  service_names = ["tor"; "tor.service"; "tor@default"; "tor@default.service"] /\
  (exists k, k <= 4 /\
     snd (tor_service action os st) = after_probes st action service_names k) /\
  (forall (k : nat) (name : string) (p : CompletedProcess),
      nth_error service_names k = Some name ->
      (forall i, i < k -> probe_fails os st action service_names i) ->
      spawn os (spawned (after_probes st action service_names k))
            ["systemctl"; action; name] = Exited p ->
      proc_returncode p = 0%Z ->
      tor_service action os st
        = run ["systemctl"; action; name] os (after_probes st action service_names k) /\
      tor_service action os st
        = (Ok (completed ["systemctl"; action; name] p),
           after_probes st action service_names (S k)) /\
      List.length (spawned (snd (tor_service action os st)))
        = List.length (spawned st) + S k).
Proof.
  intros Hin. rewrite (tor_service_supported os action st Hin).
  split; [reflexivity|]. split.
  - destruct (probe_spawned os action service_names None st) as (k & Hk & Hp & Hw & Hs).
    exists k. split; [exact Hk|]. now apply state_eq.
  - intros k name p Hn Hfail Hp Hz.
    destruct (probe_first_success os action k service_names None st name p Hn Hfail Hp Hz)
      as [E1 E2].
    repeat split; [exact E1 | exact E2 |].
    rewrite E2. cbn [snd after_probes spawned].
    rewrite length_app. unfold invocations. rewrite length_map, length_firstn.
    assert (k < List.length service_names)
      by (apply nth_error_Some; rewrite Hn; discriminate).
    lia.
Qed.

(** The service manager of the specification's example: the third of the
    four candidates is the first to succeed; three invocations are made
    and the third result is returned as it is. *)
Lemma tor_service_first_success_witness :
  tor_service "start" (Fakes.fake_os ["tor@default"] 5 None) (Fakes.fresh [])
  = (Ok (mkCommandResult "systemctl start tor@default" "active" "" 0),
     mkState [ ["systemctl"; "start"; "tor"];
               ["systemctl"; "start"; "tor.service"];
               ["systemctl"; "start"; "tor@default"] ] [] []).
Proof.
  refine (proj1 (proj2 (proj2 (proj2 (tor_service_first_success
            (Fakes.fake_os ["tor@default"] 5 None) "start" (Fakes.fresh []) _))
            2 "tor@default" (mkCompletedProcess ("active" ++ nl) "" 0) _ _ _ _))).
  - simpl. auto.
  - reflexivity.
  - intros i Hi name Hn.
    destruct i as [|[|i]]; [| |lia]; injection Hn as <-;
      eexists; (split; [reflexivity | discriminate]).
  - reflexivity.
  - reflexivity.
Defined.

(** C8. An action other than ["start"], ["stop"], ["reload"], ["status"]
    gets a result made on the spot, with an empty command text, exit code
    1 and a standard error text that names the action; nothing is
    spawned, read or written. *)
Theorem tor_service_unsupported (os : OS) (action : string) (st : State) :
  ~ In action supported_actions ->
  tor_service action os st
  = (Ok (mkCommandResult "" "" ("Unsupported action " ++ action) 1), st).
Proof.
  intros Hnot. unfold tor_service.
  destruct (is_supported action) eqn:E; [|reflexivity].
  apply is_supported_In in E. contradiction.
Qed.

Lemma tor_service_unsupported_witness :
  tor_service "restart" (Fakes.fake_os ["tor"] 1 None) (Fakes.fresh [])
  = (Ok (mkCommandResult "" "" "Unsupported action restart" 1), Fakes.fresh []).
Proof.
  apply (tor_service_unsupported (Fakes.fake_os ["tor"] 1 None) "restart" (Fakes.fresh [])).
  simpl. intros [E|[E|[E|[E|[]]]]]; discriminate E.
Defined.

(** C2, as the code has it.  For a supported action, when each of the
    four invocations ends with a non-zero exit status, [tor_service]
    returns a result made from the last one (that of
    ["tor@default.service"]): its standard error followed by the hint
    [" (Tor may not be installed or systemctl may require sudo)"], its
    exit code, its standard output, and an empty command text.  With no
    candidate at all the statements after the loop give exit code 1 and
    the hint alone. *)
Theorem tor_service_all_failed (os : OS) (action : string) (st : State) :
  In action supported_actions ->
  (forall i, probe_fails os st action service_names i) ->
  (exists q,
      spawn os (spawned (after_probes st action service_names 3))
            ["systemctl"; action; "tor@default.service"] = Exited q /\
      tor_service action os st
      = (Ok (mkCommandResult
               ""
               (stdout (completed ["systemctl"; action; "tor@default.service"] q))
               (stderr (completed ["systemctl"; action; "tor@default.service"] q)
                ++ " (Tor may not be installed or systemctl may require sudo)")
               (proc_returncode q)),
         after_probes st action service_names 4)) /\
  probe action [] None os st
  = (Ok (mkCommandResult "" "" " (Tor may not be installed or systemctl may require sudo)" 1),
     st).
Proof.
  intros Hin Hfail. rewrite (tor_service_supported os action st Hin).
  split; [|reflexivity].
  destruct (probe_all_fail os action ["tor.service"; "tor@default"; "tor@default.service"]
                           "tor" None st Hfail) as (q & Hq & _ & E).
  exists q. split; [exact Hq | exact E].
Qed.

Lemma tor_service_all_failed_witness :
  tor_service "status" (Fakes.fake_os [] 3 None) (Fakes.fresh [])
  = (Ok (mkCommandResult
           "" ""
           "Unit tor@default.service not found. (Tor may not be installed or systemctl may require sudo)"
           3),
     mkState (invocations "status" service_names) [] []).
Proof.
  destruct (tor_service_all_failed (Fakes.fake_os [] 3 None) "status" (Fakes.fresh []))
    as [(q & Hq & E) _].
  - simpl. auto.
  - intros i name Hn.
    destruct i as [|[|[|[|i]]]];
      try (injection Hn as <-; eexists; (split; [reflexivity | discriminate])).
    destruct i; discriminate Hn.
  - injection Hq as <-. exact E.
Defined.

(** The claim C2 as the specification words it fails: where all four
    candidates fail, the standard error of the result is not the last
    candidate's standard error followed by the hint of the specification,
    and does not even contain that hint. *)
Lemma tor_service_spec_hint_counterexample :
  exists r last_result st',
    tor_service "status" (Fakes.fake_os [] 3 None) (Fakes.fresh []) = (Ok r, st') /\
    run ["systemctl"; "status"; "tor@default.service"] (Fakes.fake_os [] 3 None)
        (after_probes (Fakes.fresh []) "status" service_names 3) = (Ok last_result, st') /\
    spawned st' = invocations "status" service_names /\
    returncode last_result <> 0%Z /\
    stderr r <> stderr last_result ++ Fakes.spec_hint /\
    Fakes.contains (stderr r) Fakes.spec_hint = false.
Proof.
  eexists. eexists. eexists. split; [reflexivity|]. split; [reflexivity|].
  repeat split; try reflexivity; discriminate.
Qed.

(** What [probe] can return: the result of a successful call of [run],
    the last invocation made, or a result made after the loop. *)
Lemma probe_result (os : OS) (action : string) (names : list string) :
  forall (last : option CommandResult) (st : State) (r : CommandResult),
    match last with Some l => returncode l <> 0%Z | None => True end ->
    fst (probe action names last os st) = Ok r ->
    (returncode r = 0%Z /\
     exists name p earlier,
       In name names /\ r = completed ["systemctl"; action; name] p /\
       spawned (snd (probe action names last os st))
       = (earlier ++ [["systemctl"; action; name]])%list)
    \/ (returncode r <> 0%Z /\ command r = "").
Proof.
  induction names as [|n0 names IH]; intros last st r Hlast Hr.
  - right. cbn in Hr. injection Hr as <-. split; [|reflexivity].
    destruct last; cbn; [assumption | discriminate].
  - cbn [probe] in *.
    destruct (spawn os (spawned st) ["systemctl"; action; n0]) as [p|e] eqn:E.
    + rewrite (bind_ok _ _ _ _ _ _ (run_exited _ _ _ _ E)) in *.
      cbn [completed returncode] in *.
      destruct (Z.eqb_spec (proc_returncode p) 0) as [Hz|Hnz].
      * left. cbn in Hr. injection Hr as <-. split; [exact Hz|].
        exists n0, p, (spawned st). cbn. auto.
      * destruct (IH (Some (completed ["systemctl"; action; n0] p)) _ r Hnz Hr) as [(Hz & name & p' & earlier & Hin & -> & Hs)|Hsyn].
        -- left. split; [exact Hz|]. exists name, p', earlier. cbn. auto.
        -- right. exact Hsyn.
    + rewrite (bind_raise _ _ _ _ _ _ (run_raises _ _ _ _ E)) in Hr. discriminate Hr.
Qed.

(** C5, as the code has it.  Every result of [run] carries as command
    text the quoted arguments of the argument vector it spawned, joined by
    blanks.  A result of [tor_service] with exit code 0 is such a result,
    for the candidate invoked last; its other results, made on the spot
    (unsupported action, all candidates failed), have a non-zero exit code
    and an empty command text. *)
Theorem command_text_invariant (os : OS) (st : State) :
  (forall cmd r,
      fst (run cmd os st) = Ok r ->
      command r = command_text cmd /\
      spawned (snd (run cmd os st)) = (spawned st ++ [cmd])%list) /\
  (forall action r,
      fst (tor_service action os st) = Ok r ->
      (returncode r = 0%Z /\
       exists name earlier,
         In name service_names /\
         command r = command_text ["systemctl"; action; name] /\
         spawned (snd (tor_service action os st))
         = (earlier ++ [["systemctl"; action; name]])%list)
      \/ (returncode r <> 0%Z /\ command r = "")).
Proof.
  split.
  - intros cmd r Hr. destruct (run_inv os cmd st) as (Hs & Hok & _).
    destruct (Hok r Hr) as (p & _ & ->). rewrite Hs. split; reflexivity.
  - intros action r Hr. unfold tor_service in *.
    destruct (is_supported action).
    + cbn [negb] in *.
      destruct (probe_result os action service_names None st r I Hr)
        as [(Hz & name & p & earlier & Hin & -> & Hs)|Hsyn]; [left | right; exact Hsyn].
      split; [exact Hz|]. exists name, earlier. auto.
    + right. cbn in Hr. injection Hr as <-. cbn. split; [discriminate | reflexivity].
Qed.

Lemma command_text_invariant_witness :
  (command (completed ["systemctl"; "stop"; "tor"] (mkCompletedProcess ("active" ++ nl) "" 0))
   = "systemctl stop tor") /\
  exists r, fst (tor_service "stop" (Fakes.fake_os ["tor.service"] 4 None) (Fakes.fresh []))
            = Ok r /\ command r = "systemctl stop tor.service".
Proof.
  pose proof (command_text_invariant (Fakes.fake_os ["tor"; "tor.service"] 4 None)
                                     (Fakes.fresh [])) as [Hrun _].
  pose proof (command_text_invariant (Fakes.fake_os ["tor.service"] 4 None)
                                     (Fakes.fresh [])) as [_ Htor].
  split.
  - exact (proj1 (Hrun ["systemctl"; "stop"; "tor"] _ eq_refl)).
  - eexists. split; [reflexivity|].
    destruct (Htor "stop" _ eq_refl) as [(_ & name & earlier & _ & _ & _)|(Hnz & _)].
    + reflexivity.
    + exfalso. apply Hnz. reflexivity.
Defined.

(** The claim C5 as the specification words it fails: with every
    candidate failing, four argument vectors were used, and the command
    text of the result reflects none of them. *)
Lemma command_text_counterexample :
  exists r st',
    tor_service "status" (Fakes.fake_os [] 3 None) (Fakes.fresh []) = (Ok r, st') /\
    spawned st' = invocations "status" service_names /\
    command r = "" /\
    Forall (fun cmd => command r <> command_text cmd) (spawned st').
Proof.
  eexists. eexists. split; [reflexivity|].
  repeat split. repeat constructor; discriminate.
Qed.

(** ** Prompts, the result presenter, the binary locator, reload *)

Section Actions.

Context `{Pathlib}.
Variable os : OS.

Lemma prompt_line (msg line : string) (rest : list input_event) (st : State) :
  pending st = Line line :: rest ->
  prompt msg os st = (Ok (strip line), after_input st msg rest).
Proof. intros E. unfold prompt, bind, input. rewrite E. reflexivity. Qed.

Lemma startswith_y (s : string) :
  startswith s "y" = true <-> exists r, s = "y" ++ r.
Proof.
  unfold startswith. destruct s as [|c s].
  - split; [discriminate | intros (r & E); discriminate E].
  - cbn [String.prefix]. destruct (Ascii.ascii_dec "y" c) as [<-|Hc].
    + split; [intros _; now exists s | intros _; destruct s; reflexivity].
    + split; [discriminate | intros (r & E); injection E as E _; now subst].
Qed.

(** C10. The answer to a yes/no question is affirmative exactly when the
    line read, without the blanks around it and in lower case, starts with
    the letter y; any other line, the empty one too, is a negative
    answer. *)
Theorem ask_yes_no_affirmative (msg line : string) (rest : list input_event) (st : State) :
  pending st = Line line :: rest ->
  ask_yes_no msg os st
  = (Ok (startswith (lower (strip line)) "y"), after_input st msg rest)
  /\ (startswith (lower (strip line)) "y" = true
      <-> exists r, lower (strip line) = "y" ++ r)
  /\ startswith (lower (strip "")) "y" = false.
Proof.
  intros E. split; [|split; [apply startswith_y | reflexivity]].
  unfold ask_yes_no. rewrite (bind_ok _ _ _ _ _ _ (prompt_line msg line rest st E)).
  reflexivity.
Qed.

(** C9. [print_result] writes the command line after the marker ["$ "],
    then the standard output if and only if it is not empty, then the
    standard error behind the tag ["[stderr] "] if and only if it is not
    empty, then an empty line; the exit code plays no part.  With both
    texts empty, only the command line and the empty line are written. *)
Theorem print_result_blocks (result : CommandResult) (st : State) :
  print_result result os st
  = (Ok tt,
     mkState (spawned st) (pending st)
             (written st
              ++ [nl ++ "$ " ++ command result ++ nl]
              ++ (if truthy (stdout result) then [stdout result ++ nl] else [])
              ++ (if truthy (stderr result) then ["[stderr] " ++ stderr result ++ nl] else [])
              ++ [nl]))
  /\ (forall (text : string) (code : Z),
         print_result (mkCommandResult text "" "" code) os st
         = (Ok tt, mkState (spawned st) (pending st)
                           (written st ++ [nl ++ "$ " ++ text ++ nl; nl]))).
Proof.
  assert (E : forall r : CommandResult,
             print_result r os st
             = (Ok tt,
                mkState (spawned st) (pending st)
                  (written st
                   ++ [nl ++ "$ " ++ command r ++ nl]
                   ++ (if truthy (stdout r) then [stdout r ++ nl] else [])
                   ++ (if truthy (stderr r) then ["[stderr] " ++ stderr r ++ nl] else [])
                   ++ [nl]))).
  { intros [c o e rc]. unfold print_result, bind, print, ret. cbn.
    destruct (truthy o), (truthy e); cbn;
      repeat rewrite <- app_assoc; cbn; reflexivity. }
  split; [apply E|]. intros text code. rewrite E. cbn. reflexivity.
Qed.

(** C7. [find_binary] returns the path made from the value of
    [OPENNET_BIN] when the variable is set to a non-empty text, and
    [DEFAULT_BINARY], the parent of the parent of the directory entry of
    the script joined with ["opennet"], when the variable is absent.  It
    leaves the state as it is, and its result depends on nothing but that
    variable: not on the files that exist, not on the processes. *)
Theorem find_binary_resolve (st : State) :
  (forall value, environ os "OPENNET_BIN" = Some value -> value <> "" ->
                 find_binary os st = (Ok (path_of value), st)) /\
  (environ os "OPENNET_BIN" = None ->
   find_binary os st = (Ok DEFAULT_BINARY, st) /\
   DEFAULT_BINARY = path_div (path_parent (path_parent script_file)) "opennet") /\
  (forall os' st',
      environ os' "OPENNET_BIN" = environ os "OPENNET_BIN" ->
      fst (find_binary os' st') = fst (find_binary os st) /\
      snd (find_binary os' st') = st').
Proof.
  unfold find_binary, bind, environ_get, ret. split; [|split].
  - intros value E Hne. rewrite E. destruct value; [contradiction | reflexivity].
  - intros E. rewrite E. split; reflexivity.
  - intros os' st' E. rewrite E.
    destruct (environ os "OPENNET_BIN") as [[|c v]|]; split; reflexivity.
Qed.

(** C3. [reload_server] asks for the server name and runs [down] for it.
    When [down] ends with a non-zero exit status its result is returned
    as it is, and [up] is not run; when it ends with 0, [up] is run, once,
    and the result of [reload_server] is the result of that run. *)
Theorem reload_server_short_circuit (binary : Path) (st : State)
    (line : string) (rest : list input_event) (p : CompletedProcess) :
  pending st = Line line :: rest ->
  spawn os (spawned st) [path_str binary; "down"; strip line] = Exited p ->
  (proc_returncode p <> 0%Z ->
   reload_server binary os st
   = run [path_str binary; "down"; strip line] os (after_input st "Server name: " rest)
   /\ reload_server binary os st
   = (Ok (completed [path_str binary; "down"; strip line] p),
      mkState (spawned st ++ [[path_str binary; "down"; strip line]]) rest
              (written st ++ ["Server name: "]))) /\
  (proc_returncode p = 0%Z ->
   reload_server binary os st
   = run [path_str binary; "up"; strip line] os
         (after_spawn (after_input st "Server name: " rest)
                      [path_str binary; "down"; strip line])
   /\ spawned (snd (reload_server binary os st))
   = (spawned st ++ [[path_str binary; "down"; strip line];
                     [path_str binary; "up"; strip line]])%list).
Proof.
  intros Hline Hdown.
  assert (Hrun : run [path_str binary; "down"; strip line] os
                     (after_input st "Server name: " rest)
                 = (Ok (completed [path_str binary; "down"; strip line] p),
                    after_spawn (after_input st "Server name: " rest)
                                [path_str binary; "down"; strip line]))
    by (apply run_exited; exact Hdown).
  unfold reload_server.
  rewrite (bind_ok _ _ _ _ _ _ (prompt_line _ line rest st Hline)).
  rewrite (bind_ok _ _ _ _ _ _ Hrun).
  cbn [completed returncode]. split; intros Hc.
  - destruct (Z.eqb_spec (proc_returncode p) 0) as [Hz|_]; [contradiction|].
    rewrite Hrun. split; reflexivity.
  - rewrite Hc. cbn [Z.eqb negb]. split; [reflexivity|].
    destruct (run_inv os [path_str binary; "up"; strip line]
                (after_spawn (after_input st "Server name: " rest)
                             [path_str binary; "down"; strip line])) as (Hs & _).
    rewrite Hs. cbn. now rewrite <- app_assoc.
Qed.

(** X17. An override that is set but empty counts as absent:
    [find_binary] returns [DEFAULT_BINARY], as without the variable, and
    not the path made from the empty text. *)
Lemma find_binary_empty_override (st : State) :
  environ os "OPENNET_BIN" = Some "" -> find_binary os st = (Ok DEFAULT_BINARY, st).
Proof. intros E. unfold find_binary, bind, environ_get. rewrite E. reflexivity. Qed.

(** The ninja question of [connect_client]: the flag [--ninja] is added
    exactly on an affirmative answer. *)
Lemma connect_client_ninja (binary : Path) (st : State)
    (server client answer : string) (rest : list input_event) :
  pending st = Line server :: Line client :: Line answer :: rest ->
  connect_client binary os st
  = run ([path_str binary; "connect"; "--server"; strip server; "--client"; strip client]
         ++ (if startswith (lower (strip answer)) "y" then ["--ninja"] else []))%list
        os (mkState (spawned st) rest
                    (written st ++ ["Server name: "; "Client name: ";
                                    "Use ninja mode (Tor)? [y/N]: "])).
Proof.
  intros E. unfold connect_client.
  rewrite (bind_ok _ _ _ _ _ _ (prompt_line _ server _ st E)).
  rewrite (bind_ok _ _ _ _ _ _
             (prompt_line "Client name: " client (Line answer :: rest)
                          (after_input st "Server name: " (Line client :: Line answer :: rest))
                          eq_refl)).
  unfold ask_yes_no.
  rewrite (bind_ok _ _ _ _ _ _
             (bind_ok _ _ _ _ _ _
                (prompt_line "Use ninja mode (Tor)? [y/N]: " answer rest
                   (after_input (after_input st "Server name: "
                                             (Line client :: Line answer :: rest))
                                "Client name: " (Line answer :: rest))
                   eq_refl))).
  cbv zeta. unfold after_input. cbn [spawned written pending ret].
  repeat rewrite <- app_assoc. cbn [app].
  destruct (startswith (lower (strip answer)) "y"); rewrite ?app_nil_r; reflexivity.
Qed.

(** X15. The entry gate of [menu]: when the binary exists and the answer
    to the question after the banner is not affirmative, the banner, the
    question and ["Declined. Bye."] are all that is written; no menu is
    entered, the later input is left unread and nothing is spawned. *)
Lemma menu_declined (fuel : nat) (binary : Path) (st : State)
    (line : string) (rest : list input_event) :
  file_exists os (path_str binary) = ExistsReturns true ->
  pending st = Line line :: rest ->
  startswith (lower (strip line)) "y" = false ->
  menu fuel binary os st
  = (Ok tt, mkState (spawned st) rest
                    (written st ++ [printed art; "Press Y to continue or N to quit: ";
                                    printed "Declined. Bye."])).
Proof.
  intros Hex Hline Hno. unfold menu, try_except, ensure_binary, path_exists, bind at 1 2 3.
  rewrite Hex. cbn [negb ret]. unfold print_banner. rewrite bind_print.
  assert (E : ask_yes_no "Press Y to continue or N to quit: " os
                (mkState (spawned st) (pending st) (written st ++ [printed art]))
              = (Ok false, mkState (spawned st) rest
                             ((written st ++ [printed art])
                              ++ ["Press Y to continue or N to quit: "]))).
  { unfold ask_yes_no.
    rewrite (bind_ok _ _ _ _ _ _
               (prompt_line "Press Y to continue or N to quit: " line rest
                  (mkState (spawned st) (pending st) (written st ++ [printed art]))
                  Hline)).
    cbv zeta. rewrite Hno. reflexivity. }
  rewrite (bind_ok _ _ _ _ _ _ E). cbn [negb]. unfold print.
  cbn [spawned pending written]. repeat rewrite <- app_assoc. reflexivity.
Qed.

End Actions.

(** ** The theorems on concrete worlds *)

Lemma ask_yes_no_affirmative_witness :
  ask_yes_no "Press Y to continue or N to quit: " (Fakes.fake_binary 0)
             (Fakes.fresh [Line "  Yes please "; Line "q"])
  = (Ok true, mkState [] [Line "q"] ["Press Y to continue or N to quit: "]).
Proof.
  exact (proj1 (ask_yes_no_affirmative (Fakes.fake_binary 0)
                  "Press Y to continue or N to quit: " "  Yes please " [Line "q"]
                  (Fakes.fresh [Line "  Yes please "; Line "q"]) eq_refl)).
Defined.

Lemma find_binary_resolve_witness :
  @find_binary Fakes.plain_paths (Fakes.fake_os [] 1 (Some "/tmp/x")) (Fakes.fresh [])
  = (Ok "/tmp/x", Fakes.fresh []) /\
  @find_binary Fakes.plain_paths (Fakes.fake_os [] 1 None) (Fakes.fresh [])
  = (Ok "/opt/wirestack/opennet/opennet", Fakes.fresh []).
Proof.
  split.
  - refine (proj1 (@find_binary_resolve Fakes.plain_paths
                     (Fakes.fake_os [] 1 (Some "/tmp/x")) (Fakes.fresh []))
                  "/tmp/x" eq_refl _).
    discriminate.
  - exact (proj1 (proj1 (proj2 (@find_binary_resolve Fakes.plain_paths
                     (Fakes.fake_os [] 1 None) (Fakes.fresh []))) eq_refl)).
Defined.

Lemma reload_server_short_circuit_witness :
  @reload_server Fakes.plain_paths "/usr/local/bin/opennet" (Fakes.fake_binary 2)
                 (Fakes.fresh [Line " wg0 "])
  = (Ok (mkCommandResult "/usr/local/bin/opennet down wg0" "" "wg-quick: down failed" 2),
     mkState [["/usr/local/bin/opennet"; "down"; "wg0"]] [] ["Server name: "]) /\
  spawned (snd (@reload_server Fakes.plain_paths "/usr/local/bin/opennet"
                  (Fakes.fake_binary 0) (Fakes.fresh [Line " wg0 "])))
  = [["/usr/local/bin/opennet"; "down"; "wg0"]; ["/usr/local/bin/opennet"; "up"; "wg0"]].
Proof.
  split.
  - refine (proj2 (proj1 (@reload_server_short_circuit Fakes.plain_paths
              (Fakes.fake_binary 2) "/usr/local/bin/opennet" (Fakes.fresh [Line " wg0 "])
              " wg0 " [] (mkCompletedProcess "" ("wg-quick: down failed" ++ nl) 2)
              eq_refl eq_refl) _)).
    discriminate.
  - exact (proj2 (proj2 (@reload_server_short_circuit Fakes.plain_paths
              (Fakes.fake_binary 0) "/usr/local/bin/opennet" (Fakes.fresh [Line " wg0 "])
              " wg0 " [] (mkCompletedProcess "" ("wg-quick: down failed" ++ nl) 0)
              eq_refl eq_refl) eq_refl)).
Defined.

(** ** Standard output only grows *)

Lemma writes_ret {A : Type} (a : A) : writes_on (ret a).
Proof. intros os st. exists []. cbn. now rewrite app_nil_r. Qed.

Lemma writes_raise {A : Type} (e : exn) : writes_on (@raise A e).
Proof. intros os st. exists []. cbn. now rewrite app_nil_r. Qed.

Lemma writes_bind {A B : Type} (m : M A) (k : A -> M B) :
  writes_on m -> (forall a, writes_on (k a)) -> writes_on (bind m k).
Proof.
  intros Hm Hk os st. unfold bind. destruct (Hm os st) as (t1 & E1).
  destruct (m os st) as [[a| e |] st1]; cbn in E1.
  - destruct (Hk a os st1) as (t2 & E2). exists (t1 ++ t2)%list.
    now rewrite E2, E1, app_assoc.
  - now exists t1.
  - now exists t1.
Qed.

Lemma writes_try_except {A : Type} (m : M A) (handler : exn -> M A) :
  writes_on m -> (forall e, writes_on (handler e)) -> writes_on (try_except m handler).
Proof.
  intros Hm Hh os st. unfold try_except. destruct (Hm os st) as (t1 & E1).
  destruct (m os st) as [[a| e |] st1]; cbn in E1.
  - now exists t1.
  - destruct (Hh e os st1) as (t2 & E2). exists (t1 ++ t2)%list.
    now rewrite E2, E1, app_assoc.
  - now exists t1.
Qed.

Lemma writes_print (s : string) : writes_on (print s).
Proof. intros os st. now exists [printed s]. Qed.

Lemma writes_input (msg : string) : writes_on (input msg).
Proof.
  intros os st. exists [msg]. unfold input.
  destruct (pending st) as [|[l|] rest]; reflexivity.
Qed.

Lemma writes_subprocess_run (cmd : list string) : writes_on (subprocess_run cmd).
Proof.
  intros os st. exists []. unfold subprocess_run.
  destruct (spawn os (spawned st) cmd); cbn; now rewrite app_nil_r.
Qed.

Lemma writes_environ_get (name : string) : writes_on (environ_get name).
Proof. intros os st. exists []. cbn. now rewrite app_nil_r. Qed.

Lemma writes_path_exists `{Pathlib} (p : Path) : writes_on (path_exists p).
Proof.
  intros os st. exists []. unfold path_exists.
  destruct (file_exists os (path_str p)); cbn; now rewrite app_nil_r.
Qed.

Lemma writes_out_of_fuel {A : Type} : writes_on (fun (_ : OS) st => (@OutOfFuel A, st)).
Proof. intros os st. exists []. cbn. now rewrite app_nil_r. Qed.

(** Goals [writes_on m] for a program text [m]: follow its structure. *)
Ltac writes_step :=
  match goal with
  | |- writes_on (bind _ _) => apply writes_bind; [|intros ?]
  | |- writes_on (try_except _ _) => apply writes_try_except; [|intros ?]
  | |- writes_on (ret _) => apply writes_ret
  | |- writes_on (raise _) => apply writes_raise
  | |- writes_on (print _) => apply writes_print
  | |- writes_on (input _) => apply writes_input
  | |- writes_on (subprocess_run _) => apply writes_subprocess_run
  | |- writes_on (environ_get _) => apply writes_environ_get
  | |- writes_on (path_exists _) => apply writes_path_exists
  | |- writes_on (if ?b then _ else _) => destruct b
  | |- writes_on (match ?x with _ => _ end) => destruct x
  | |- writes_on (let _ := _ in _) => cbv zeta
  | H : writes_on ?m |- writes_on ?m => exact H
  | H : forall x, writes_on (@?m x) |- writes_on _ => apply H
  end.

Ltac writes := repeat writes_step.

Ltac forall_entries :=
  repeat match goal with
         | |- Forall _ (_ :: _) => apply Forall_cons
         | |- Forall _ [] => apply Forall_nil
         end.

Section Writes.

Context `{Pathlib}.

Lemma writes_run (cmd : list string) : writes_on (run cmd).
Proof. unfold run. writes. Qed.

Lemma writes_prompt (msg : string) : writes_on (prompt msg).
Proof. unfold prompt. writes. Qed.

Lemma writes_ask_yes_no (msg : string) : writes_on (ask_yes_no msg).
Proof. unfold ask_yes_no. writes. apply writes_prompt. Qed.

Lemma writes_print_result (r : CommandResult) : writes_on (print_result r).
Proof. unfold print_result. writes. Qed.

Lemma writes_probe (action : string) (names : list string) :
  forall last, writes_on (probe action names last).
Proof.
  induction names as [|n names IH]; intros last; cbn [probe]; writes.
  apply writes_run.
Qed.

Lemma writes_tor_service (action : string) : writes_on (tor_service action).
Proof. unfold tor_service. writes. apply writes_probe. Qed.

Create HintDb writes.
#[local] Hint Resolve writes_run writes_prompt writes_ask_yes_no writes_print_result
  writes_tor_service : writes.

Ltac writes_all := writes; auto with writes.

Lemma writes_leaf_actions (binary : Path) :
  Forall (fun m : M CommandResult => writes_on m)
    [ show_server binary; add_server binary; delete_server binary; list_clients binary;
      add_client binary; export_client binary; start_server binary; stop_server binary;
      reload_server binary; connect_client binary; disconnect_client binary ].
Proof.
  forall_entries;
    unfold show_server, add_server, delete_server, list_clients, add_client,
      export_client, start_server, stop_server, reload_server, connect_client,
      disconnect_client;
    writes_all.
Qed.

Lemma dict_get_writes (actions : ActionRegistry) (key label : string)
    (f : M CommandResult) :
  registry_writes actions -> dict_get key actions = Some (label, Some f) -> writes_on f.
Proof.
  unfold registry_writes, registry_all.
  induction 1 as [|[k [l g]] actions Hg _ IH]; cbn; [discriminate|].
  destruct (String.eqb key k); [|exact IH].
  intros [= -> ->]. exact Hg.
Qed.

Lemma writes_print_options (actions : ActionRegistry) : writes_on (print_options actions).
Proof.
  induction actions as [|[k [l g]] actions IH]; cbn [print_options]; writes.
Qed.

Lemma writes_run_action (f : M CommandResult) : writes_on f -> writes_on (run_action f).
Proof. intros Hf. unfold run_action. writes_all. Qed.

Lemma writes_dispatch (actions : ActionRegistry) (choice : string) :
  registry_writes actions -> writes_on (dispatch actions choice).
Proof.
  intros Hreg. unfold dispatch.
  destruct (dict_get choice actions) as [[label [f|]]|] eqn:E; writes.
  apply writes_run_action. exact (dict_get_writes _ _ _ _ Hreg E).
Qed.

Lemma writes_while_true (fuel : nat) (body : M ctl) :
  writes_on body -> writes_on (while_true fuel body).
Proof.
  intros Hb. induction fuel as [|fuel IH]; cbn [while_true].
  - apply writes_out_of_fuel.
  - writes.
Qed.

Lemma registry_writes_advanced (binary : Path) : registry_writes (advanced_actions binary).
Proof.
  pose proof (writes_leaf_actions binary) as L.
  repeat match goal with H : Forall _ (_ :: _) |- _ => inversion H; clear H; subst end.
  unfold registry_writes, registry_all, advanced_actions, host_actions, device_actions.
  forall_entries; cbn [snd]; auto with writes.
Qed.

Lemma registry_writes_host (binary : Path) : registry_writes (host_actions binary).
Proof.
  pose proof (writes_leaf_actions binary) as L.
  repeat match goal with H : Forall _ (_ :: _) |- _ => inversion H; clear H; subst end.
  unfold registry_writes, registry_all, advanced_actions, host_actions, device_actions.
  forall_entries; cbn [snd]; auto with writes.
Qed.

Lemma registry_writes_device (binary : Path) : registry_writes (device_actions binary).
Proof.
  pose proof (writes_leaf_actions binary) as L.
  repeat match goal with H : Forall _ (_ :: _) |- _ => inversion H; clear H; subst end.
  unfold registry_writes, registry_all, advanced_actions, host_actions, device_actions.
  forall_entries; cbn [snd]; auto with writes.
Qed.

End Writes.

(** ** The menus *)

Section Menus.

Context `{Pathlib}.

Lemma starts_with_nil {A : Type} (m : M A) : writes_on m -> starts_with [] m.
Proof. intros Hm os st. exact (Hm os st). Qed.

Lemma starts_with_print {A : Type} (s : string) (d : list string) (k : M A) :
  starts_with d k -> starts_with (printed s :: d) (print s ;;; k).
Proof.
  intros Hk os st. unfold bind, print.
  destruct (Hk os (mkState (spawned st) (pending st) (written st ++ [printed s])))
    as (tail & E).
  exists tail. rewrite E. cbn [written]. now rewrite <- app_assoc.
Qed.

Lemma starts_with_print_options {A : Type} (actions : ActionRegistry)
    (d : list string) (k : M A) :
  starts_with d k -> starts_with (option_lines actions ++ d) (print_options actions ;;; k).
Proof.
  intros Hk. induction actions as [|[key [label g]] actions IH].
  - intros os st. exact (Hk os st).
  - intros os st. cbn [print_options option_lines map fst snd].
    change (bind (bind (print (key ++ ") " ++ label)) (fun _ => print_options actions))
                 (fun _ => k) os st)
      with (bind (print_options actions) (fun _ => k) os
                 (mkState (spawned st) (pending st)
                          (written st ++ [printed (key ++ ") " ++ label)]))).
    destruct (IH os (mkState (spawned st) (pending st)
                             (written st ++ [printed (key ++ ") " ++ label)])))
      as (tail & E).
    exists tail. rewrite E. cbn [written]. now rewrite <- app_assoc.
Qed.

(** Every iteration of a menu starts by writing the options of its
    state. *)
Lemma menu_step_display (ms : MenuState) (fuel : nat) (binary : Path) :
  starts_with (display ms binary) (menu_step ms fuel binary).
Proof.
  assert (Hd : forall (A : Type) (d : list string) (m : M A),
             starts_with (d ++ []) m -> starts_with d m)
    by (intros A d m Hm; now rewrite app_nil_r in Hm).
  pose proof (registry_writes_host binary) as Hh.
  pose proof (registry_writes_device binary) as Hv.
  pose proof (registry_writes_advanced binary) as Ha.
  destruct ms; cbn [menu_step display].
  - unfold menu_body.
    repeat apply starts_with_print. apply starts_with_nil.
    apply writes_bind; [apply writes_prompt | intros answer; cbv zeta].
    repeat (writes_step; try apply writes_print);
      apply writes_while_true;
      [ unfold host_menu_body | unfold device_menu_body ];
      repeat (writes_step; try apply writes_print);
      try apply writes_print_options; try apply writes_prompt;
      try (apply writes_dispatch; assumption).
    apply writes_while_true. unfold advanced_menu_body.
    repeat (writes_step; try apply writes_print);
      try apply writes_print_options; try apply writes_prompt;
      try (apply writes_dispatch; assumption).
  - unfold host_menu_body.
    apply starts_with_print, Hd, starts_with_print_options, starts_with_nil.
    apply writes_bind; [apply writes_prompt | intros choice].
    repeat writes_step; try (apply writes_dispatch; assumption).
    apply writes_while_true. unfold advanced_menu_body.
    repeat (writes_step; try apply writes_print);
      try apply writes_print_options; try apply writes_prompt;
      try (apply writes_dispatch; assumption).
  - unfold device_menu_body.
    apply starts_with_print, Hd, starts_with_print_options, starts_with_nil.
    apply writes_bind; [apply writes_prompt | intros choice].
    repeat writes_step; try (apply writes_dispatch; assumption).
  - unfold advanced_menu_body.
    apply starts_with_print, Hd, starts_with_print_options, starts_with_nil.
    apply writes_bind; [apply writes_prompt | intros choice].
    repeat writes_step; try (apply writes_dispatch; assumption).
Qed.

Lemma print_options_run (actions : ActionRegistry) (os : OS) :
  forall st, print_options actions os st
             = (Ok tt, mkState (spawned st) (pending st)
                               (written st ++ option_lines actions)).
Proof.
  induction actions as [|[key [label g]] actions IH]; intros st.
  - cbn. rewrite app_nil_r. now destruct st.
  - cbn [print_options option_lines map fst snd]. rewrite bind_print, IH.
    cbn [spawned pending written]. now rewrite <- app_assoc.
Qed.

Lemma existsb_false_In {A : Type} (f : A -> bool) (l : list A) (x : A) :
  existsb f l = false -> In x l -> f x = false.
Proof.
  intros E Hin. destruct (f x) eqn:Fx; [|reflexivity].
  rewrite <- E. symmetry. apply existsb_exists. now exists x.
Qed.

Lemma dict_get_unbound (actions : ActionRegistry) (key : string) :
  existsb (String.eqb key) (map fst actions) = false -> dict_get key actions = None.
Proof.
  induction actions as [|[k v] actions IH]; cbn; [reflexivity|].
  intros E. apply orb_false_elim in E as [-> E]. now apply IH.
Qed.

(** A submenu on a line that is no bound key and no spelling of the back
    key: the registry lookup fails and the notice is written. *)
Lemma dispatch_unbound (actions : ActionRegistry) (choice : string) (os : OS) (st : State) :
  existsb (String.eqb choice) (map fst actions) = false ->
  dispatch actions choice os st
  = (Ok Continue,
     mkState (spawned st) (pending st)
             (written st ++ [printed ("Invalid choice." ++ nl)])).
Proof.
  intros E. unfold dispatch. rewrite (dict_get_unbound _ _ E). reflexivity.
Qed.

Lemma unrecognized_step (ms : MenuState) (fuel : nat) (binary : Path) (os : OS)
    (st : State) (line : string) (rest : list input_event) :
  pending st = Line line :: rest ->
  recognized ms binary line = false ->
  menu_step ms fuel binary os st = (Ok Continue, after_invalid ms binary st rest).
Proof.
  intros Hline Hrec. unfold recognized, is_bound in Hrec.
  apply orb_false_elim in Hrec as [Hkeys Hback].
  assert (Hprompt : forall sp w,
            prompt "Select option: " os (mkState sp (pending st) w)
            = (Ok (strip line), mkState sp rest (w ++ ["Select option: "])))
    by (intros sp w; now apply prompt_line).
  unfold after_invalid.
  destruct ms; cbn [menu_step display key_of bound_keys] in *.
  - unfold menu_body. rewrite !bind_print.
    rewrite (bind_ok _ _ _ _ _ _ (Hprompt _ _)). cbv zeta.
    rewrite (existsb_false_In _ _ "1" Hkeys) by (simpl; tauto).
    rewrite (existsb_false_In _ _ "2" Hkeys) by (simpl; tauto).
    rewrite (existsb_false_In _ _ "q" Hkeys) by (simpl; tauto).
    rewrite bind_print. cbn [ret after_input spawned pending written].
    repeat rewrite <- app_assoc. reflexivity.
  - unfold host_menu_body. rewrite bind_print.
    rewrite (bind_ok _ _ _ _ _ _ (print_options_run _ _ _)).
    rewrite (bind_ok _ _ _ _ _ _ (Hprompt _ _)).
    rewrite Hback.
    rewrite (existsb_false_In _ _ "5" Hkeys) by (simpl; tauto).
    rewrite (dispatch_unbound _ _ _ _ Hkeys).
    cbn [after_input spawned pending written].
    repeat rewrite <- app_assoc. reflexivity.
  - unfold device_menu_body. rewrite bind_print.
    rewrite (bind_ok _ _ _ _ _ _ (print_options_run _ _ _)).
    rewrite (bind_ok _ _ _ _ _ _ (Hprompt _ _)).
    rewrite Hback, (dispatch_unbound _ _ _ _ Hkeys).
    cbn [after_input spawned pending written].
    repeat rewrite <- app_assoc. reflexivity.
  - unfold advanced_menu_body. rewrite bind_print.
    rewrite (bind_ok _ _ _ _ _ _ (print_options_run _ _ _)).
    rewrite (bind_ok _ _ _ _ _ _ (Hprompt _ _)).
    rewrite Hback, (dispatch_unbound _ _ _ _ Hkeys).
    cbn [after_input spawned pending written].
    repeat rewrite <- app_assoc. reflexivity.
Qed.

(** C6, as the code has it.  In each of the states Root, Host, Device and
    Advanced, a line that the state does not recognize (its key is not
    bound in the registry of the state and, in the three submenus, is not
    the back key in upper case; Root compares in lower case) makes the
    iteration write the options, the prompt and the notice
    ["Invalid choice."], raise nothing, and end with [Continue]: the loop
    of the same state goes on, and its next iteration starts by writing
    the options of that state again. *)
Theorem unrecognized_key_self_loop (ms : MenuState) (fuel : nat) (binary : Path)
    (os : OS) (st : State) (line : string) (rest : list input_event) :
  pending st = Line line :: rest ->
  recognized ms binary line = false ->
  menu_step ms fuel binary os st = (Ok Continue, after_invalid ms binary st rest) /\
  (forall n, while_true (S n) (menu_step ms fuel binary) os st
             = while_true n (menu_step ms fuel binary) os (after_invalid ms binary st rest)) /\
  (exists tail,
      written (snd (menu_step ms fuel binary os (after_invalid ms binary st rest)))
      = (written (after_invalid ms binary st rest) ++ display ms binary ++ tail)%list).
Proof.
  intros Hline Hrec.
  pose proof (unrecognized_step ms fuel binary os st line rest Hline Hrec) as E.
  split; [exact E|]. split.
  - intros n. cbn [while_true]. now rewrite (bind_ok _ _ _ _ _ _ E).
  - apply menu_step_display.
Qed.

End Menus.

Lemma unrecognized_key_self_loop_witness :
  @menu_step Fakes.plain_paths Host 3 "/usr/local/bin/opennet"
             (Fakes.fake_binary 0) (Fakes.fresh [Line " 9 "; Line "b"])
  = (Ok Continue,
     mkState [] [Line "b"]
             (@display Fakes.plain_paths Host "/usr/local/bin/opennet"
              ++ ["Select option: "; printed ("Invalid choice." ++ nl)])).
Proof.
  apply (@unrecognized_key_self_loop Fakes.plain_paths Host 3 "/usr/local/bin/opennet"
           (Fakes.fake_binary 0) (Fakes.fresh [Line " 9 "; Line "b"]) " 9 " [Line "b"]);
    reflexivity.
Defined.

(** The claim C6 as the specification words it fails: in Host the key
    ["B"] is not bound in the registry, whose keys are 1 to 5 and b, yet
    no notice is written and the iteration ends with [Return], which
    leaves the state. *)
Lemma unbound_key_counterexample :
  @bound_keys Fakes.plain_paths Host "/usr/local/bin/opennet"
  = ["1"; "2"; "3"; "4"; "5"; "b"] /\
  @is_bound Fakes.plain_paths Host "/usr/local/bin/opennet" (@key_of Host "B") = false /\
  @menu_step Fakes.plain_paths Host 3 "/usr/local/bin/opennet"
             (Fakes.fake_binary 0) (Fakes.fresh [Line "B"; Line "1"])
  = (Ok Return,
     mkState [] [Line "1"]
             (@display Fakes.plain_paths Host "/usr/local/bin/opennet"
              ++ ["Select option: "])) /\
  @menu_loop Fakes.plain_paths Host 3 "/usr/local/bin/opennet"
             (Fakes.fake_binary 0) (Fakes.fresh [Line "B"; Line "1"])
  = (Ok tt,
     mkState [] [Line "1"]
             (@display Fakes.plain_paths Host "/usr/local/bin/opennet"
              ++ ["Select option: "])).
Proof. repeat split. Qed.

(** ** The menus end on every finite input *)

Lemma bounded_ret {A : Type} (n : nat) (a : A) : bounded n (ret a).
Proof. intros os st _. cbn. split; [discriminate | lia]. Qed.

Lemma bounded_raise {A : Type} (n : nat) (e : exn) : bounded n (@raise A e).
Proof. intros os st _. cbn. split; [discriminate | lia]. Qed.

Lemma bounded_bind {A B : Type} (n : nat) (m : M A) (k : A -> M B) :
  bounded n m -> (forall a, bounded n (k a)) -> bounded n (bind m k).
Proof.
  intros Hm Hk os st Hn. unfold bind. destruct (Hm os st Hn) as [Hf Hp].
  destruct (m os st) as [[a| e |] st1]; cbn in Hf, Hp.
  - destruct (Hk a os st1) as [Hf' Hp']; [lia|]. split; [exact Hf' | lia].
  - cbn. split; [discriminate | exact Hp].
  - contradiction.
Qed.

Lemma bounded_try_except {A : Type} (n : nat) (m : M A) (handler : exn -> M A) :
  bounded n m -> (forall e, bounded n (handler e)) -> bounded n (try_except m handler).
Proof.
  intros Hm Hh os st Hn. unfold try_except. destruct (Hm os st Hn) as [Hf Hp].
  destruct (m os st) as [[a| e |] st1]; cbn in Hf, Hp.
  - cbn. split; [discriminate | exact Hp].
  - destruct (Hh e os st1) as [Hf' Hp']; [lia|]. split; [exact Hf' | lia].
  - contradiction.
Qed.

Lemma bounded_print (n : nat) (s : string) : bounded n (print s).
Proof. intros os st _. cbn. split; [discriminate | lia]. Qed.

Lemma bounded_input (n : nat) (msg : string) : bounded n (input msg).
Proof.
  intros os st _. unfold input.
  destruct (pending st) as [|[l|] rest]; cbn; split; try discriminate; lia.
Qed.

Lemma bounded_subprocess_run (n : nat) (cmd : list string) : bounded n (subprocess_run cmd).
Proof.
  intros os st _. unfold subprocess_run.
  destruct (spawn os (spawned st) cmd); cbn; split; try discriminate; lia.
Qed.

Lemma bounded_environ_get (n : nat) (name : string) : bounded n (environ_get name).
Proof. intros os st _. cbn. split; [discriminate | lia]. Qed.

Lemma bounded_path_exists `{Pathlib} (n : nat) (p : Path) : bounded n (path_exists p).
Proof.
  intros os st _. unfold path_exists.
  destruct (file_exists os (path_str p)); cbn; (split; [discriminate | lia]).
Qed.

Ltac bounded_step :=
  match goal with
  | |- bounded _ (bind _ _) => apply bounded_bind; [|intros ?]
  | |- bounded _ (try_except _ _) => apply bounded_try_except; [|intros ?]
  | |- bounded _ (ret _) => apply bounded_ret
  | |- bounded _ (raise _) => apply bounded_raise
  | |- bounded _ (print _) => apply bounded_print
  | |- bounded _ (input _) => apply bounded_input
  | |- bounded _ (subprocess_run _) => apply bounded_subprocess_run
  | |- bounded _ (environ_get _) => apply bounded_environ_get
  | |- bounded _ (path_exists _) => apply bounded_path_exists
  | |- bounded _ (if ?b then _ else _) => destruct b
  | |- bounded _ (match ?x with _ => _ end) => destruct x
  | |- bounded _ (let _ := _ in _) => cbv zeta
  | H : bounded ?n ?m |- bounded ?n ?m => exact H
  | H : forall x, bounded _ (@?m x) |- bounded _ _ => apply H
  end.

Ltac bounded_tac := repeat bounded_step.

Section Termination.

Context `{Pathlib}.
Variable n : nat.

Lemma bounded_run (cmd : list string) : bounded n (run cmd).
Proof. unfold run. bounded_tac. Qed.

Lemma bounded_prompt (msg : string) : bounded n (prompt msg).
Proof. unfold prompt. bounded_tac. Qed.

Lemma bounded_ask_yes_no (msg : string) : bounded n (ask_yes_no msg).
Proof. unfold ask_yes_no. bounded_tac. apply bounded_prompt. Qed.

Lemma bounded_print_result (r : CommandResult) : bounded n (print_result r).
Proof. unfold print_result. bounded_tac. Qed.

Lemma bounded_probe (action : string) (names : list string) :
  forall last, bounded n (probe action names last).
Proof.
  induction names as [|name names IH]; intros last; cbn [probe]; bounded_tac.
  apply bounded_run.
Qed.

Lemma bounded_tor_service (action : string) : bounded n (tor_service action).
Proof. unfold tor_service. bounded_tac. apply bounded_probe. Qed.

Create HintDb bounded.
#[local] Hint Resolve bounded_run bounded_prompt bounded_ask_yes_no bounded_print_result
  bounded_tor_service : bounded.

Lemma bounded_leaf_actions (binary : Path) :
  Forall (fun m : M CommandResult => bounded n m)
    [ show_server binary; add_server binary; delete_server binary; list_clients binary;
      add_client binary; export_client binary; start_server binary; stop_server binary;
      reload_server binary; connect_client binary; disconnect_client binary ].
Proof.
  forall_entries;
    unfold show_server, add_server, delete_server, list_clients, add_client,
      export_client, start_server, stop_server, reload_server, connect_client,
      disconnect_client;
    bounded_tac; auto with bounded.
Qed.

Lemma dict_get_bounded (actions : ActionRegistry) (key label : string)
    (f : M CommandResult) :
  registry_bounded n actions -> dict_get key actions = Some (label, Some f) -> bounded n f.
Proof.
  unfold registry_bounded, registry_all.
  induction 1 as [|[k [l g]] actions Hg _ IH]; cbn; [discriminate|].
  destruct (String.eqb key k); [|exact IH].
  intros [= -> ->]. exact Hg.
Qed.

Lemma bounded_print_options (actions : ActionRegistry) : bounded n (print_options actions).
Proof.
  induction actions as [|[k [l g]] actions IH]; cbn [print_options]; bounded_tac.
Qed.

Lemma bounded_run_action (f : M CommandResult) : bounded n f -> bounded n (run_action f).
Proof. intros Hf. unfold run_action. bounded_tac; auto with bounded. Qed.

Lemma bounded_dispatch (actions : ActionRegistry) (choice : string) :
  registry_bounded n actions -> bounded n (dispatch actions choice).
Proof.
  intros Hreg. unfold dispatch.
  destruct (dict_get choice actions) as [[label [f|]]|] eqn:E; bounded_tac.
  apply bounded_run_action. exact (dict_get_bounded _ _ _ _ Hreg E).
Qed.

Lemma registry_bounded_advanced (binary : Path) : registry_bounded n (advanced_actions binary).
Proof.
  pose proof (bounded_leaf_actions binary) as L.
  repeat match goal with H : Forall _ (_ :: _) |- _ => inversion H; clear H; subst end.
  unfold registry_bounded, registry_all, advanced_actions, host_actions, device_actions.
  forall_entries; cbn [snd]; auto with bounded.
Qed.

Lemma registry_bounded_host (binary : Path) : registry_bounded n (host_actions binary).
Proof.
  pose proof (bounded_leaf_actions binary) as L.
  repeat match goal with H : Forall _ (_ :: _) |- _ => inversion H; clear H; subst end.
  unfold registry_bounded, registry_all, advanced_actions, host_actions, device_actions.
  forall_entries; cbn [snd]; auto with bounded.
Qed.

Lemma registry_bounded_device (binary : Path) : registry_bounded n (device_actions binary).
Proof.
  pose proof (bounded_leaf_actions binary) as L.
  repeat match goal with H : Forall _ (_ :: _) |- _ => inversion H; clear H; subst end.
  unfold registry_bounded, registry_all, advanced_actions, host_actions, device_actions.
  forall_entries; cbn [snd]; auto with bounded.
Qed.

(** *** Loop bodies *)

Lemma body_bounded_prompt (msg : string) (k : string -> M ctl) :
  (forall choice, bounded n (k choice)) -> body_bounded n (bind (prompt msg) k).
Proof.
  intros Hk os st Hn. unfold prompt, bind, input.
  destruct (pending st) as [|[line|] rest] eqn:E; cbn.
  - repeat split; [discriminate | lia | discriminate].
  - destruct (Hk (strip line) os (mkState (spawned st) rest (written st ++ [msg])))
      as [Hf Hp]; [cbn in *; lia|].
    cbn in Hp. repeat split; [exact Hf | lia | intros _; lia].
  - repeat split; [discriminate | lia | discriminate].
Qed.

Lemma body_bounded_print (s : string) (body : M ctl) :
  body_bounded n body -> body_bounded n (print s ;;; body).
Proof.
  intros Hb os st Hn. rewrite bind_print.
  exact (Hb os (mkState (spawned st) (pending st) (written st ++ [printed s])) Hn).
Qed.

Lemma body_bounded_print_options (actions : ActionRegistry) (body : M ctl) :
  body_bounded n body -> body_bounded n (print_options actions ;;; body).
Proof.
  intros Hb os st Hn.
  rewrite (bind_ok _ _ _ _ _ _ (print_options_run actions os st)).
  exact (Hb os (mkState (spawned st) (pending st) (written st ++ option_lines actions)) Hn).
Qed.

(** A loop with a bounded body and more fuel than events ends. *)
Lemma bounded_while_true (body : M ctl) :
  body_bounded n body ->
  forall fuel os st,
    List.length (pending st) < fuel -> List.length (pending st) < n ->
    fst (while_true fuel body os st) <> OutOfFuel /\
    List.length (pending (snd (while_true fuel body os st))) <= List.length (pending st).
Proof.
  intros Hb fuel. induction fuel as [|fuel IH]; intros os st Hfuel Hn; [lia|].
  cbn [while_true]. unfold bind. destruct (Hb os st Hn) as (Hf & Hp & Hc).
  destruct (body os st) as [[[|]| e |] st1]; cbn in Hf, Hp, Hc.
  - specialize (Hc eq_refl). destruct (IH os st1) as [Hf' Hp']; [lia | lia |].
    split; [exact Hf' | lia].
  - cbn. split; [discriminate | exact Hp].
  - cbn. split; [discriminate | exact Hp].
  - contradiction.
Qed.

End Termination.

Section MenusEnd.

Context `{Pathlib}.

Lemma bounded_loop (fuel : nat) (body : M ctl) :
  body_bounded fuel body -> bounded fuel (while_true fuel body).
Proof. intros Hb os st Hn. now apply (bounded_while_true fuel body Hb). Qed.

Lemma body_bounded_advanced (n : nat) (binary : Path) :
  body_bounded n (advanced_menu_body binary).
Proof.
  unfold advanced_menu_body.
  apply body_bounded_print, body_bounded_print_options, body_bounded_prompt.
  intros choice. bounded_tac. apply bounded_dispatch, registry_bounded_advanced.
Qed.

Lemma body_bounded_device (n : nat) (binary : Path) :
  body_bounded n (device_menu_body binary).
Proof.
  unfold device_menu_body.
  apply body_bounded_print, body_bounded_print_options, body_bounded_prompt.
  intros choice. bounded_tac. apply bounded_dispatch, registry_bounded_device.
Qed.

Lemma body_bounded_host (fuel : nat) (binary : Path) :
  body_bounded fuel (host_menu_body fuel binary).
Proof.
  unfold host_menu_body.
  apply body_bounded_print, body_bounded_print_options, body_bounded_prompt.
  intros choice. bounded_tac.
  - apply bounded_loop, body_bounded_advanced.
  - apply bounded_dispatch, registry_bounded_host.
Qed.

Lemma body_bounded_root (fuel : nat) (binary : Path) :
  body_bounded fuel (menu_body fuel binary).
Proof.
  unfold menu_body. repeat apply body_bounded_print. apply body_bounded_prompt.
  intros choice. bounded_tac.
  - apply bounded_loop, body_bounded_host.
  - apply bounded_loop, body_bounded_device.
Qed.

Lemma bounded_menu (fuel : nat) (binary : Path) : bounded fuel (menu fuel binary).
Proof.
  unfold menu, ensure_binary, print_banner. bounded_tac.
  - apply bounded_ask_yes_no.
  - apply bounded_loop, body_bounded_root.
Qed.

(** X16. The program ends on every finite input.  Every iteration of a
    menu loop that asks for another one has consumed an input event, also
    across nested menus and through every action, so the loops run at
    most once per event: [main] ends with its last state or with the
    exception that leaves [menu], never by want of fuel. *)
Theorem main_ends (os : OS) (st : State) : fst (main os st) <> OutOfFuel.
Proof.
  unfold main.
  assert (Hb : bounded (S (List.length (pending st)))
                 (binary <- find_binary ;; menu (S (List.length (pending st))) binary)).
  { apply bounded_bind; [unfold find_binary; bounded_tac | intros binary; apply bounded_menu]. }
  apply Hb. lia.
Qed.

End MenusEnd.

(** ** Trimming *)

Section Trimming.

Lemma lstrip_head (s : string) (c : ascii) (r : string) :
  lstrip s = String c r -> isspace c = false.
Proof.
  induction s as [|d s IH]; cbn; [discriminate|].
  destruct (isspace d) eqn:Hd; [exact IH|].
  intros [= <- _]. exact Hd.
Qed.

Lemma rstrip_head (c : ascii) (r : string) :
  isspace c = false -> exists r', rstrip (String c r) = String c r'.
Proof.
  intros Hc. cbn. destruct (rstrip r) as [|e t].
  - rewrite Hc. now exists "".
  - now exists (String e t).
Qed.

Lemma rstrip_last (s : string) :
  forall r c, rstrip s = r ++ String c "" -> isspace c = false.
Proof.
  induction s as [|d s IH]; intros r c E.
  - destruct r; discriminate E.
  - cbn in E. destruct (rstrip s) as [|e t].
    + destruct (isspace d) eqn:Hd; [destruct r; discriminate E|].
      destruct r as [|x [|y r]]; cbn in E; try discriminate E.
      injection E as <-. exact Hd.
    + destruct r as [|x r]; cbn in E; [discriminate E|].
      injection E as _ E. exact (IH r c E).
Qed.

Lemma rstrip_idem (s : string) : rstrip (rstrip s) = rstrip s.
Proof.
  induction s as [|d s IH]; [reflexivity|].
  cbn [rstrip]. destruct (rstrip s) as [|e t] eqn:E.
  - destruct (isspace d) eqn:Hd; [reflexivity|]. cbn. now rewrite Hd.
  - change (rstrip (String d (String e t))) with
      (match rstrip (String e t) with
       | EmptyString => if isspace d then EmptyString else String d EmptyString
       | r' => String d r'
       end).
    now rewrite IH.
Qed.

Lemma rstrip_fixed (s : string) :
  (forall r c, s = r ++ String c "" -> isspace c = false) -> rstrip s = s.
Proof.
  induction s as [|d s IH]; intros Hlast; [reflexivity|].
  cbn [rstrip]. destruct s as [|e t].
  - cbn. now rewrite (Hlast "" d eq_refl).
  - rewrite IH; [reflexivity|].
    intros r c E. apply (Hlast (String d r) c). cbn. now rewrite E.
Qed.

Lemma lstrip_fixed (s : string) :
  (forall c r, s = String c r -> isspace c = false) -> lstrip s = s.
Proof.
  intros Hhead. destruct s as [|c r]; [reflexivity|].
  cbn. now rewrite (Hhead c r eq_refl).
Qed.

Lemma strip_trimmed (s : string) : trimmed (strip s).
Proof.
  unfold trimmed, strip. split.
  - intros c r E. destruct (lstrip s) as [|d t] eqn:El; [discriminate E|].
    pose proof (lstrip_head s d t El) as Hd.
    destruct (rstrip_head d t Hd) as (r' & E'). rewrite E' in E.
    injection E as <- _. exact Hd.
  - intros r c E. exact (rstrip_last _ r c E).
Qed.

Lemma strip_fixed (s : string) : trimmed s -> strip s = s.
Proof.
  intros [Hhead Hlast]. unfold strip. rewrite (lstrip_fixed s Hhead).
  exact (rstrip_fixed s Hlast).
Qed.

End Trimming.

(** X1. [run] normalises what [subprocess.run] returns and hides nothing
    that it raises.  Whenever [subprocess.run] returns a completed
    process, with any exit status and any captured text, [run] returns a
    result with that exit status and the two captured texts without blank
    characters at either end (a text that has none is kept as it is), and
    exactly this invocation is recorded.  Whenever [subprocess.run]
    raises (the program cannot be started, the captured bytes cannot be
    decoded, the user interrupts), the same exception leaves [run]. *)
Theorem run_normalizes (os : OS) (cmd : list string) (st : State) :
  (forall p, spawn os (spawned st) cmd = Exited p ->
     exists r,
       run cmd os st = (Ok r, after_spawn st cmd) /\
       returncode r = proc_returncode p /\
       stdout r = strip (proc_stdout p) /\ stderr r = strip (proc_stderr p) /\
       trimmed (stdout r) /\ trimmed (stderr r) /\
       (trimmed (proc_stdout p) -> stdout r = proc_stdout p) /\
       (trimmed (proc_stderr p) -> stderr r = proc_stderr p)) /\
  (forall e, spawn os (spawned st) cmd = SpawnRaises e ->
     run cmd os st = (Raise e, after_spawn st cmd)).
Proof.
  split.
  - intros p E. exists (completed cmd p).
    rewrite (run_exited os cmd st p E). cbn [completed returncode stdout stderr].
    repeat (split; [reflexivity|]).
    split; [apply strip_trimmed|]. split; [apply strip_trimmed|].
    split; apply strip_fixed.
  - intros e E. exact (run_raises os cmd st e E).
Qed.

Lemma run_normalizes_witness :
  (exists r,
     run ["opennet"; "down"; "wg0"] (Fakes.fake_binary 2) (Fakes.fresh [])
     = (Ok r, mkState [["opennet"; "down"; "wg0"]] [] []) /\
     returncode r = 2%Z /\ stderr r = "wg-quick: down failed") /\
  run ["opennet"; "genkey"]
      (mkOS (fun _ _ => SpawnRaises (ValueError "'utf-8' codec can't decode byte 0xff"))
            (fun _ => None) (fun _ => ExistsReturns true))
      (Fakes.fresh [])
  = (Raise (ValueError "'utf-8' codec can't decode byte 0xff"),
     mkState [["opennet"; "genkey"]] [] []).
Proof.
  split.
  - destruct (proj1 (run_normalizes (Fakes.fake_binary 2) ["opennet"; "down"; "wg0"]
                       (Fakes.fresh []))
                    (mkCompletedProcess "" ("wg-quick: down failed" ++ nl) 2) eq_refl)
      as (r & E & Hrc & _ & Herr & _).
    exists r. split; [exact E|]. split; [exact Hrc | exact Herr].
  - exact (proj2 (run_normalizes
                    (mkOS (fun _ _ => SpawnRaises
                                        (ValueError "'utf-8' codec can't decode byte 0xff"))
                          (fun _ => None) (fun _ => ExistsReturns true))
                    ["opennet"; "genkey"] (Fakes.fresh []))
                 (ValueError "'utf-8' codec can't decode byte 0xff") eq_refl).
Defined.

(** ** Prompts, the entry of [menu], the [try] around an action *)

Section Entry.

Context `{Pathlib}.
Variable os : OS.

(** X2. [prompt] writes its message and consumes one event.  A line is
    returned without the blank characters around it (and as it is when it
    has none); at the end of the input [EOFError] is raised, on Ctrl-C
    [KeyboardInterrupt]; nothing is spawned. *)
Theorem prompt_trims (msg : string) (st : State) :
  (forall line rest, pending st = Line line :: rest ->
     prompt msg os st = (Ok (strip line), after_input st msg rest) /\
     trimmed (strip line) /\ (trimmed line -> strip line = line)) /\
  (pending st = [] ->
     prompt msg os st = (Raise EOFError, after_input st msg [])) /\
  (forall rest, pending st = Interrupt :: rest ->
     prompt msg os st = (Raise KeyboardInterrupt, after_input st msg rest)).
Proof.
  split; [|split].
  - intros line rest E. split; [now apply prompt_line|].
    split; [apply strip_trimmed | apply strip_fixed].
  - intros E. unfold prompt, bind, input. now rewrite E.
  - intros rest E. unfold prompt, bind, input. now rewrite E.
Qed.

Lemma prompt_eof (msg : string) (st : State) :
  pending st = [] -> prompt msg os st = (Raise EOFError, after_input st msg []).
Proof. intros E. unfold prompt, bind, input. now rewrite E. Qed.

Lemma prompt_interrupt (msg : string) (st : State) (rest : list input_event) :
  pending st = Interrupt :: rest ->
  prompt msg os st = (Raise KeyboardInterrupt, after_input st msg rest).
Proof. intros E. unfold prompt, bind, input. now rewrite E. Qed.


(** The result presenter always ends well and touches neither the
    processes nor the input. *)
Lemma print_result_ok (r : CommandResult) (st : State) :
  exists w, print_result r os st
            = (Ok tt, mkState (spawned st) (pending st) (written st ++ w)).
Proof.
  unfold print_result, bind, print, ret.
  destruct (truthy (stdout r)), (truthy (stderr r)); cbn;
    eexists; repeat rewrite <- app_assoc; reflexivity.
Qed.

Lemma run_action_outcome (f : M CommandResult) (st : State) :
  match f os st with
  | (Ok r, st1) => run_action f os st = print_result r os st1
  | (Raise e, st1) =>
      run_action f os st
      = (Ok tt, mkState (spawned st1) (pending st1) (written st1 ++ [caught_notice e]))
  | (OutOfFuel, st1) => run_action f os st = (OutOfFuel, st1)
  end.
Proof.
  unfold run_action, try_except, bind.
  destruct (f os st) as [[r|e|] st1]; [| |reflexivity].
  - destruct (print_result_ok r st1) as (w & E). rewrite E. reflexivity.
  - destruct e; reflexivity.
Qed.

(** X4. The [try] around a bound action lets no exception through.  For
    an action that ends, [run_action] ends well: a result is handed to
    the result presenter; [KeyboardInterrupt] becomes the notice
    ["Cancelled."] and any other exception the notice ["Error: "] with
    its message.  What the action spawned and consumed is left as it
    is. *)
Theorem run_action_contains (f : M CommandResult) (st : State) :
  fst (f os st) <> OutOfFuel ->
  fst (run_action f os st) = Ok tt /\
  spawned (snd (run_action f os st)) = spawned (snd (f os st)) /\
  pending (snd (run_action f os st)) = pending (snd (f os st)) /\
  (forall r, fst (f os st) = Ok r ->
             run_action f os st = print_result r os (snd (f os st))) /\
  (forall e, fst (f os st) = Raise e ->
             written (snd (run_action f os st))
             = (written (snd (f os st)) ++ [caught_notice e])%list) /\
  caught_notice KeyboardInterrupt = printed (nl ++ "Cancelled." ++ nl) /\
  (forall e, e <> KeyboardInterrupt ->
             caught_notice e = printed ("Error: " ++ exn_str e ++ nl)).
Proof.
  intros Hfuel. pose proof (run_action_outcome f st) as E.
  destruct (f os st) as [[r|e|] st1]; cbn [fst snd] in *; [| |contradiction].
  - destruct (print_result_ok r st1) as (w & Ew).
    split; [now rewrite E, Ew|]. split; [now rewrite E, Ew|].
    split; [now rewrite E, Ew|]. split; [intros r' [= <-]; exact E|].
    split; [discriminate|]. split; [reflexivity|].
    intros e He. destruct e; [contradiction|reflexivity..].
  - rewrite E. cbn. repeat split; try discriminate.
    + intros e' [= <-]. reflexivity.
    + intros e' He. destruct e'; [contradiction|reflexivity..].
Qed.

End Entry.

Lemma prompt_trims_witness :
  prompt "Server name: " (Fakes.fake_binary 0) (Fakes.fresh [Line "  wg0  "; Interrupt])
  = (Ok "wg0", mkState [] [Interrupt] ["Server name: "]).
Proof.
  exact (proj1 (proj1 (prompt_trims (Fakes.fake_binary 0) "Server name: "
                         (Fakes.fresh [Line "  wg0  "; Interrupt]))
                      "  wg0  " [Interrupt] eq_refl)).
Defined.


Lemma run_action_contains_witness :
  fst (run_action (run ["opennet"; "genkey"])
         (mkOS (fun _ _ => SpawnRaises (OSError "no such file")) (fun _ => None)
               (fun _ => ExistsReturns false))
         (Fakes.fresh [])) = Ok tt /\
  written (snd (run_action (run ["opennet"; "genkey"])
         (mkOS (fun _ _ => SpawnRaises (OSError "no such file")) (fun _ => None)
               (fun _ => ExistsReturns false))
         (Fakes.fresh []))) = [printed ("Error: no such file" ++ nl)].
Proof.
  destruct (run_action_contains
              (mkOS (fun _ _ => SpawnRaises (OSError "no such file")) (fun _ => None)
                    (fun _ => ExistsReturns false))
              (run ["opennet"; "genkey"]) (Fakes.fresh []))
    as (Hok & _ & _ & _ & Hw & _); [discriminate|].
  split; [exact Hok | exact (Hw (OSError "no such file") eq_refl)].
Defined.

(** ** The menus, key by key *)

Section Keys.

Context `{Pathlib}.
Variable os : OS.

(** Every iteration is: the options, the prompt, the choice. *)
Lemma menu_step_choose (ms : MenuState) (fuel : nat) (binary : Path) (st : State) :
  menu_step ms fuel binary os st
  = bind (prompt "Select option: ") (choose ms fuel binary) os
         (after_display ms binary st).
Proof.
  unfold after_display.
  destruct ms; cbn [menu_step display choose].
  - unfold menu_body. rewrite !bind_print. cbn [spawned pending written].
    repeat rewrite <- app_assoc. reflexivity.
  - unfold host_menu_body. rewrite bind_print.
    rewrite (bind_ok _ _ _ _ _ _ (print_options_run _ _ _)).
    cbn [spawned pending written]. repeat rewrite <- app_assoc. reflexivity.
  - unfold device_menu_body. rewrite bind_print.
    rewrite (bind_ok _ _ _ _ _ _ (print_options_run _ _ _)).
    cbn [spawned pending written]. repeat rewrite <- app_assoc. reflexivity.
  - unfold advanced_menu_body. rewrite bind_print.
    rewrite (bind_ok _ _ _ _ _ _ (print_options_run _ _ _)).
    cbn [spawned pending written]. repeat rewrite <- app_assoc. reflexivity.
Qed.

Lemma menu_step_line (ms : MenuState) (fuel : nat) (binary : Path) (st : State)
    (line : string) (rest : list input_event) :
  pending st = Line line :: rest ->
  menu_step ms fuel binary os st
  = choose ms fuel binary (strip line) os
           (mkState (spawned st) rest
                    (written st ++ display ms binary ++ ["Select option: "])).
Proof.
  intros E. rewrite menu_step_choose.
  rewrite (bind_ok _ _ _ _ _ _
             (prompt_line os "Select option: " line rest (after_display ms binary st) E)).
  unfold after_input, after_display. cbn [spawned pending written].
  now rewrite <- app_assoc.
Qed.

(** X5. The prompt of a menu is outside every [try]: in each state, the
    end of the input at the prompt ends the loop with [EOFError], and
    Ctrl-C at the prompt ends it with [KeyboardInterrupt], after the
    options and the prompt have been written. *)
Theorem menu_prompt_uncaught (ms : MenuState) (fuel n : nat) (binary : Path) (st : State) :
  (pending st = [] ->
   while_true (S n) (menu_step ms fuel binary) os st
   = (Raise EOFError,
      mkState (spawned st) []
              (written st ++ display ms binary ++ ["Select option: "]))) /\
  (forall rest, pending st = Interrupt :: rest ->
   while_true (S n) (menu_step ms fuel binary) os st
   = (Raise KeyboardInterrupt,
      mkState (spawned st) rest
              (written st ++ display ms binary ++ ["Select option: "]))).
Proof.
  split; [intros E | intros rest E]; cbn [while_true].
  - assert (Hstep : menu_step ms fuel binary os st
                    = (Raise EOFError,
                       mkState (spawned st) []
                               (written st ++ display ms binary ++ ["Select option: "]))).
    { rewrite menu_step_choose.
      rewrite (bind_raise _ _ _ _ _ _
                 (prompt_eof os "Select option: " (after_display ms binary st) E)).
      unfold after_input, after_display. cbn [spawned pending written].
      now rewrite <- app_assoc. }
    now rewrite (bind_raise _ _ _ _ _ _ Hstep).
  - assert (Hstep : menu_step ms fuel binary os st
                    = (Raise KeyboardInterrupt,
                       mkState (spawned st) rest
                               (written st ++ display ms binary ++ ["Select option: "]))).
    { rewrite menu_step_choose.
      rewrite (bind_raise _ _ _ _ _ _
                 (prompt_interrupt os "Select option: " (after_display ms binary st) rest E)).
      unfold after_input, after_display. cbn [spawned pending written].
      now rewrite <- app_assoc. }
    now rewrite (bind_raise _ _ _ _ _ _ Hstep).
Qed.

Lemma leave_step (ms : MenuState) (fuel : nat) (binary : Path) (st : State)
    (line : string) (rest : list input_event) :
  pending st = Line line :: rest ->
  lower (strip line) = leave_key ms ->
  menu_step ms fuel binary os st = (Ok Return, after_leave ms binary st rest).
Proof.
  intros E Hkey. rewrite (menu_step_line ms fuel binary st line rest E).
  unfold after_leave.
  destruct ms; cbn [choose leave_key farewell] in *; cbv zeta; rewrite Hkey;
    cbn [String.eqb Ascii.eqb Bool.eqb]; try rewrite bind_print;
    cbn [ret spawned pending written]; repeat rewrite <- app_assoc;
    rewrite ?app_nil_r; reflexivity.
Qed.

(** X6. Leaving a state.  In [Root] a line that reads q, in the three
    submenus a line that reads b, in either case of the letter and with
    blanks around it, ends the loop of the state: the options, the prompt
    and the farewell of the state are written (["Bye."] in [Root], an
    empty line in [Advanced], nothing in [Host] and [Device]), one event
    is consumed and nothing is spawned. *)
Theorem leaving_a_state (ms : MenuState) (fuel n : nat) (binary : Path) (st : State)
    (line : string) (rest : list input_event) :
  pending st = Line line :: rest ->
  lower (strip line) = leave_key ms ->
  menu_step ms fuel binary os st = (Ok Return, after_leave ms binary st rest) /\
  while_true (S n) (menu_step ms fuel binary) os st
  = (Ok tt, after_leave ms binary st rest).
Proof.
  intros E Hkey. pose proof (leave_step ms fuel binary st line rest E Hkey) as Hstep.
  split; [exact Hstep|]. cbn [while_true].
  now rewrite (bind_ok _ _ _ _ _ _ Hstep).
Qed.

(** X7. Into a submenu and back.  From [Root] the keys 1 and 2, from
    [Host] the key 5, enter [Host], [Device] and [Advanced]; when the
    next line is the back key, the iteration of the first state ends with
    [Continue]: both states have shown their options once, nothing was
    spawned, and the two lines are consumed. *)
Theorem submenu_round_trip (parent child : MenuState) (key : string) (fuel : nat)
    (binary : Path) (st : State) (line back : string) (rest : list input_event) :
  In (parent, key, child) transitions ->
  pending st = Line line :: Line back :: rest ->
  key_of parent line = key ->
  lower (strip back) = "b" ->
  menu_step parent (S fuel) binary os st
  = (Ok Continue,
     mkState (spawned st) rest
             (written st ++ display parent binary ++ ["Select option: "]
              ++ display child binary ++ ["Select option: "] ++ farewell child)).
Proof.
  intros Hin E Hkey Hback.
  rewrite (menu_step_line parent (S fuel) binary st line (Line back :: rest) E).
  assert (Hchild : forall sp w,
            child <> Root ->
            while_true (S fuel) (menu_step child (S fuel) binary) os
                       (mkState sp (Line back :: rest) w)
            = (Ok tt, after_leave child binary (mkState sp (Line back :: rest) w) rest)).
  { intros sp w Hc. cbn [while_true].
    rewrite (bind_ok _ _ _ _ _ _
               (leave_step child (S fuel) binary (mkState sp (Line back :: rest) w)
                  back rest eq_refl
                  ltac:(destruct child; [contradiction | exact Hback ..]))).
    reflexivity. }
  cbn [In transitions] in Hin.
  destruct Hin as [[= <- <- <-]|[[= <- <- <-]|[[= <- <- <-]|[]]]];
    cbn [key_of] in Hkey; cbn [choose]; cbv zeta; rewrite Hkey;
    try change (String.eqb (lower "5") "b") with false;
    cbn [String.eqb Ascii.eqb Bool.eqb];
    [ change (host_menu (S fuel) binary)
        with (while_true (S fuel) (menu_step Host (S fuel) binary))
    | change (device_menu (S fuel) binary)
        with (while_true (S fuel) (menu_step Device (S fuel) binary))
    | change (advanced_menu (S fuel) binary)
        with (while_true (S fuel) (menu_step Advanced (S fuel) binary)) ];
    rewrite (bind_ok _ _ _ _ _ _ (Hchild _ _ ltac:(discriminate)));
    unfold after_leave; cbn [ret spawned pending written];
    repeat rewrite <- app_assoc; reflexivity.
Qed.

Lemma executable_key (ms : MenuState) (binary : Path) (key label : string)
    (f : M CommandResult) :
  dict_get key (registry ms binary) = Some (label, Some f) ->
  String.eqb (lower key) "b" = false /\ (ms = Host -> String.eqb key "5" = false).
Proof.
  destruct ms; cbn [registry host_actions device_actions advanced_actions dict_get];
    repeat match goal with
           | |- context [if String.eqb key ?k then _ else _] =>
               destruct (String.eqb_spec key k) as [->|_];
               [ cbv iota; intros Hs;
                 first [ discriminate Hs
                       | split;
                         [reflexivity | intros Hm; first [reflexivity | discriminate Hm]] ]
               | cbv iota ]
           end;
    intros Hs; discriminate Hs.
Qed.

Lemma registry_is_bounded (n : nat) (ms : MenuState) (binary : Path) :
  registry_bounded n (registry ms binary).
Proof.
  destruct ms; cbn [registry].
  - apply Forall_nil.
  - apply registry_bounded_host.
  - apply registry_bounded_device.
  - apply registry_bounded_advanced.
Qed.

(** X8. The loop survives every bound action.  In [Host], [Device] and
    [Advanced], a line whose trimmed text is the key of an executable
    entry makes the iteration write the label between ["== "] and
    [" =="], run the action inside the [try], and end with [Continue]:
    whatever the action does (a failing process, a process that cannot
    be started, the end of the input or Ctrl-C at one of its questions),
    no exception leaves the iteration and the state is not left. *)
Theorem bound_action_continues (ms : MenuState) (fuel : nat) (binary : Path) (st : State)
    (line : string) (rest : list input_event) (label : string) (f : M CommandResult) :
  pending st = Line line :: rest ->
  dict_get (strip line) (registry ms binary) = Some (label, Some f) ->
  fst (run_action f os (after_label ms binary st rest label)) = Ok tt /\
  menu_step ms fuel binary os st
  = (Ok Continue, snd (run_action f os (after_label ms binary st rest label))).
Proof.
  intros E Hget.
  destruct (executable_key ms binary _ _ _ Hget) as [Hb H5].
  assert (Hok : fst (run_action f os (after_label ms binary st rest label)) = Ok tt).
  { pose proof (run_action_outcome os f (after_label ms binary st rest label)) as Ho.
    destruct (dict_get_bounded (S (List.length rest)) _ _ _ _
                (registry_is_bounded _ ms binary) Hget os
                (after_label ms binary st rest label)) as [Hfuel _];
      [cbn; lia|].
    destruct (f os (after_label ms binary st rest label)) as [[r|e|] st1];
      cbn [fst] in Hfuel; [| |contradiction].
    - destruct (print_result_ok os r st1) as (w & Ew). now rewrite Ho, Ew.
    - now rewrite Ho. }
  split; [exact Hok|].
  rewrite (menu_step_line ms fuel binary st line rest E).
  assert (Hd : dispatch (registry ms binary) (strip line) os
                 (mkState (spawned st) rest
                          (written st ++ display ms binary ++ ["Select option: "]))
               = (Ok Continue, snd (run_action f os (after_label ms binary st rest label)))).
  { unfold dispatch. rewrite Hget, bind_print. unfold after_label in *.
    cbn [spawned pending written]. repeat rewrite <- app_assoc. cbn [app].
    unfold bind at 1.
    destruct (run_action f os _) as [[[]| |] st2]; cbn [fst snd] in *;
      [reflexivity | discriminate Hok | discriminate Hok]. }
  destruct ms; cbn [choose registry] in *;
    [discriminate Hget | rewrite Hb, (H5 eq_refl) | rewrite Hb | rewrite Hb];
    exact Hd.
Qed.

End Keys.

Lemma menu_prompt_uncaught_witness :
  @menu_loop Fakes.plain_paths Device 1 "/usr/local/bin/opennet" (Fakes.fake_binary 0)
             (Fakes.fresh [])
  = (Raise EOFError,
     mkState [] [] (@display Fakes.plain_paths Device "/usr/local/bin/opennet"
                    ++ ["Select option: "])).
Proof.
  exact (proj1 (@menu_prompt_uncaught Fakes.plain_paths (Fakes.fake_binary 0) Device 1 0
                  "/usr/local/bin/opennet" (Fakes.fresh [])) eq_refl).
Defined.

Lemma leaving_a_state_witness :
  @menu_loop Fakes.plain_paths Advanced 1 "/usr/local/bin/opennet" (Fakes.fake_binary 0)
             (Fakes.fresh [Line " B "; Line "q"])
  = (Ok tt,
     mkState [] [Line "q"]
             (@display Fakes.plain_paths Advanced "/usr/local/bin/opennet"
              ++ ["Select option: "; printed ""])).
Proof.
  exact (proj2 (@leaving_a_state Fakes.plain_paths (Fakes.fake_binary 0) Advanced 1 0
                  "/usr/local/bin/opennet" (Fakes.fresh [Line " B "; Line "q"])
                  " B " [Line "q"] eq_refl eq_refl)).
Defined.

Lemma submenu_round_trip_witness :
  @menu_step Fakes.plain_paths Host 2 "/usr/local/bin/opennet" (Fakes.fake_binary 0)
             (Fakes.fresh [Line "5"; Line "b"; Line "b"])
  = (Ok Continue,
     mkState [] [Line "b"]
             (@display Fakes.plain_paths Host "/usr/local/bin/opennet"
              ++ ["Select option: "]
              ++ @display Fakes.plain_paths Advanced "/usr/local/bin/opennet"
              ++ ["Select option: "; printed ""])).
Proof.
  apply (@submenu_round_trip Fakes.plain_paths (Fakes.fake_binary 0) Host Advanced "5" 1
           "/usr/local/bin/opennet" (Fakes.fresh [Line "5"; Line "b"; Line "b"])
           "5" "b" [Line "b"]); [simpl; tauto | reflexivity ..].
Defined.

Lemma bound_action_continues_witness :
  fst (@menu_step Fakes.plain_paths Host 1 "/usr/local/bin/opennet" (Fakes.fake_binary 2)
         (Fakes.fresh [Line "2"; Interrupt])) = Ok Continue.
Proof.
  rewrite (proj2 (@bound_action_continues Fakes.plain_paths (Fakes.fake_binary 2) Host 1
                    "/usr/local/bin/opennet" (Fakes.fresh [Line "2"; Interrupt])
                    "2" [Interrupt] "Stop server (down)"
                    (@stop_server Fakes.plain_paths "/usr/local/bin/opennet")
                    eq_refl eq_refl)).
  reflexivity.
Defined.

(** ** What the program spawns *)

Section SpawnsPrimitives.

Variable ok : list string -> Prop.

Lemma spawns_silent {A : Type} (m : M A) :
  (forall os st, spawned (snd (m os st)) = spawned st) -> spawns_only ok m.
Proof.
  intros Hm os st. exists []. rewrite Hm, app_nil_r. split; [reflexivity | constructor].
Qed.

Lemma spawns_ret {A : Type} (a : A) : spawns_only ok (ret a).
Proof. now apply spawns_silent. Qed.

Lemma spawns_raise {A : Type} (e : exn) : spawns_only ok (@raise A e).
Proof. now apply spawns_silent. Qed.

Lemma spawns_print (s : string) : spawns_only ok (print s).
Proof. now apply spawns_silent. Qed.

Lemma spawns_input (msg : string) : spawns_only ok (input msg).
Proof.
  apply spawns_silent. intros os st. unfold input.
  destruct (pending st) as [|[l|] rest]; reflexivity.
Qed.

Lemma spawns_environ_get (name : string) : spawns_only ok (environ_get name).
Proof. now apply spawns_silent. Qed.

Lemma spawns_path_exists `{Pathlib} (p : Path) : spawns_only ok (path_exists p).
Proof.
  apply spawns_silent. intros os st. unfold path_exists.
  destruct (file_exists os (path_str p)); reflexivity.
Qed.

Lemma spawns_out_of_fuel {A : Type} :
  spawns_only ok (fun (_ : OS) st => (@OutOfFuel A, st)).
Proof. now apply spawns_silent. Qed.

Lemma spawns_subprocess_run (cmd : list string) :
  ok cmd -> spawns_only ok (subprocess_run cmd).
Proof.
  intros Hcmd os st. exists [cmd]. unfold subprocess_run.
  destruct (spawn os (spawned st) cmd); cbn; (split; [reflexivity | now constructor]).
Qed.

Lemma spawns_bind {A B : Type} (m : M A) (k : A -> M B) :
  spawns_only ok m -> (forall a, spawns_only ok (k a)) -> spawns_only ok (bind m k).
Proof.
  intros Hm Hk os st. unfold bind. destruct (Hm os st) as (n1 & E1 & F1).
  destruct (m os st) as [[a| e |] st1]; cbn [snd] in E1.
  - destruct (Hk a os st1) as (n2 & E2 & F2). exists (n1 ++ n2)%list.
    rewrite E2, E1, app_assoc. split; [reflexivity | now apply Forall_app].
  - now exists n1.
  - now exists n1.
Qed.

Lemma spawns_try_except {A : Type} (m : M A) (handler : exn -> M A) :
  spawns_only ok m -> (forall e, spawns_only ok (handler e)) ->
  spawns_only ok (try_except m handler).
Proof.
  intros Hm Hh os st. unfold try_except. destruct (Hm os st) as (n1 & E1 & F1).
  destruct (m os st) as [[a| e |] st1]; cbn [snd] in E1.
  - now exists n1.
  - destruct (Hh e os st1) as (n2 & E2 & F2). exists (n1 ++ n2)%list.
    rewrite E2, E1, app_assoc. split; [reflexivity | now apply Forall_app].
  - now exists n1.
Qed.

Lemma spawns_run (cmd : list string) : ok cmd -> spawns_only ok (run cmd).
Proof.
  intros Hcmd. unfold run. apply spawns_bind; [now apply spawns_subprocess_run|].
  intros p. apply spawns_ret.
Qed.

Lemma spawns_while_true (fuel : nat) (body : M ctl) :
  spawns_only ok body -> spawns_only ok (while_true fuel body).
Proof.
  intros Hb. induction fuel as [|fuel IH]; cbn [while_true].
  - apply spawns_out_of_fuel.
  - apply spawns_bind; [exact Hb|]. intros [|]; [exact IH | apply spawns_ret].
Qed.

End SpawnsPrimitives.

Ltac spawns_step :=
  match goal with
  | |- spawns_only _ (bind _ _) => apply spawns_bind; [|intros ?]
  | |- spawns_only _ (try_except _ _) => apply spawns_try_except; [|intros ?]
  | |- spawns_only _ (ret _) => apply spawns_ret
  | |- spawns_only _ (raise _) => apply spawns_raise
  | |- spawns_only _ (print _) => apply spawns_print
  | |- spawns_only _ (input _) => apply spawns_input
  | |- spawns_only _ (environ_get _) => apply spawns_environ_get
  | |- spawns_only _ (path_exists _) => apply spawns_path_exists
  | |- spawns_only _ (if ?b then _ else _) => destruct b
  | |- spawns_only _ (match ?x with _ => _ end) => destruct x
  | |- spawns_only _ (let _ := _ in _) => cbv zeta
  | H : spawns_only ?ok ?m |- spawns_only ?ok ?m => exact H
  end.

Ltac spawns_tac := repeat spawns_step.

Section Spawns.

Context `{Pathlib}.
Variable binary : Path.

Lemma allowed_binary (sub : string) (args : list string) :
  In sub subcommands -> allowed_command binary (path_str binary :: sub :: args).
Proof. intros Hin. left. exists sub, args. auto. Qed.

Lemma spawns_binary (sub : string) (args : list string) :
  In sub subcommands ->
  spawns_only (allowed_command binary) (run (path_str binary :: sub :: args)).
Proof. intros Hin. apply spawns_run. now apply allowed_binary. Qed.

Lemma spawns_prompt (msg : string) : spawns_only (allowed_command binary) (prompt msg).
Proof. unfold prompt. spawns_tac. Qed.

Lemma spawns_ask_yes_no (msg : string) :
  spawns_only (allowed_command binary) (ask_yes_no msg).
Proof. unfold ask_yes_no. spawns_tac. apply spawns_prompt. Qed.

Lemma spawns_print_result (r : CommandResult) :
  spawns_only (allowed_command binary) (print_result r).
Proof. unfold print_result. spawns_tac. Qed.

Lemma spawns_probe (action : string) (names : list string) :
  In action supported_actions ->
  (forall name, In name names -> In name service_names) ->
  forall last, spawns_only (allowed_command binary) (probe action names last).
Proof.
  intros Ha. induction names as [|name names IH]; intros Hn last; cbn [probe].
  - apply spawns_ret.
  - apply spawns_bind.
    + apply spawns_run. right. exists action, name.
      split; [exact Ha|]. split; [apply Hn; now left | reflexivity].
    + intros r. destruct (returncode r =? 0)%Z; [apply spawns_ret|].
      apply IH. intros n Hin. apply Hn. now right.
Qed.

Lemma spawns_tor_service (action : string) :
  spawns_only (allowed_command binary) (tor_service action).
Proof.
  unfold tor_service. destruct (is_supported action) eqn:E; cbn [negb].
  - apply spawns_probe; [now apply is_supported_In | auto].
  - apply spawns_ret.
Qed.

Create HintDb spawns.
#[local] Hint Resolve spawns_prompt spawns_ask_yes_no spawns_print_result
  spawns_tor_service : spawns.

Ltac spawns_binary_tac :=
  spawns_tac; auto with spawns;
  try match goal with
      | |- spawns_only _ (run (if ?b then _ else _)) => destruct b; cbn [app]
      end;
  try (apply spawns_binary; simpl; tauto).

Lemma spawns_leaf_actions :
  Forall (fun m : M CommandResult => spawns_only (allowed_command binary) m)
    [ show_server binary; add_server binary; delete_server binary; list_clients binary;
      add_client binary; export_client binary; start_server binary; stop_server binary;
      reload_server binary; connect_client binary; disconnect_client binary ].
Proof.
  forall_entries;
    unfold show_server, add_server, delete_server, list_clients, add_client,
      export_client, start_server, stop_server, reload_server, connect_client,
      disconnect_client;
    spawns_binary_tac.
Qed.

Lemma registry_spawns (ms : MenuState) :
  registry_all (fun f => spawns_only (allowed_command binary) f) (registry ms binary).
Proof.
  pose proof spawns_leaf_actions as L.
  repeat match goal with H : Forall _ (_ :: _) |- _ => inversion H; clear H; subst end.
  unfold registry_all.
  destruct ms; unfold registry, host_actions, device_actions, advanced_actions;
    forall_entries; cbn [snd]; auto with spawns;
    try (apply spawns_binary; simpl; tauto).
Qed.

Lemma spawns_print_options (actions : ActionRegistry) :
  spawns_only (allowed_command binary) (print_options actions).
Proof.
  induction actions as [|[k [l g]] actions IH]; cbn [print_options]; spawns_tac.
Qed.

Lemma spawns_run_action (f : M CommandResult) :
  spawns_only (allowed_command binary) f ->
  spawns_only (allowed_command binary) (run_action f).
Proof. intros Hf. unfold run_action. spawns_tac; auto with spawns. Qed.

Lemma spawns_dispatch (ms : MenuState) (choice : string) :
  spawns_only (allowed_command binary) (dispatch (registry ms binary) choice).
Proof.
  pose proof (registry_spawns ms) as Hreg. unfold dispatch.
  destruct (dict_get choice (registry ms binary)) as [[label [f|]]|] eqn:E; spawns_tac.
  apply spawns_run_action.
  clear - Hreg E. unfold registry_all in Hreg.
  induction Hreg as [|[k [l g]] actions Hg _ IH]; cbn in E; [discriminate|].
  destruct (String.eqb choice k); [|exact (IH E)].
  injection E as -> ->. exact Hg.
Qed.

Ltac spawns_menu_tac ms :=
  spawns_tac;
  match goal with
  | |- spawns_only _ (print_options _) => apply spawns_print_options
  | |- spawns_only _ (prompt _) => apply spawns_prompt
  | |- spawns_only _ (dispatch _ _) => apply (spawns_dispatch ms)
  | Hsub : forall n, spawns_only _ (?f n _) |- spawns_only _ (?f _ _) => apply Hsub
  end.

Lemma spawns_menu_step (ms : MenuState) (fuel : nat) :
  spawns_only (allowed_command binary) (menu_step ms fuel binary).
Proof.
  assert (Hadv : forall n, spawns_only (allowed_command binary) (advanced_menu n binary)).
  { intros n. apply spawns_while_true. unfold advanced_menu_body.
    spawns_menu_tac Advanced. }
  assert (Hdev : forall n, spawns_only (allowed_command binary) (device_menu n binary)).
  { intros n. apply spawns_while_true. unfold device_menu_body.
    spawns_menu_tac Device. }
  assert (Hhost : forall n, spawns_only (allowed_command binary) (host_menu n binary)).
  { intros n. apply spawns_while_true. unfold host_menu_body.
    spawns_menu_tac Host. }
  destruct ms; cbn [menu_step].
  - unfold menu_body. spawns_menu_tac Root.
  - unfold host_menu_body. spawns_menu_tac Host.
  - unfold device_menu_body. spawns_menu_tac Device.
  - unfold advanced_menu_body. spawns_menu_tac Advanced.
Qed.

Lemma spawns_menu (fuel : nat) :
  spawns_only (allowed_command binary) (menu fuel binary).
Proof.
  assert (Hgo : spawns_only (allowed_command binary)
                  (print_banner ;;;
                   go <- ask_yes_no "Press Y to continue or N to quit: " ;;
                   if negb go then print "Declined. Bye."
                   else while_true fuel (menu_body fuel binary))).
  { unfold print_banner. spawns_tac.
    - apply spawns_ask_yes_no.
    - apply spawns_while_true. exact (spawns_menu_step Root fuel). }
  intros os st. unfold menu, try_except, ensure_binary, path_exists, bind at 1 2 3.
  destruct (file_exists os (path_str binary)) as [[|]|e]; cbn [negb ret raise].
  - exact (Hgo os st).
  - exists []. cbn. rewrite app_nil_r. split; [reflexivity | constructor].
  - exists []. destruct e; cbn; rewrite app_nil_r; (split; [reflexivity | constructor]).
Qed.

End Spawns.

(** X9. The program starts nothing but the binary it located, with one of
    its twelve subcommands as first argument, and [systemctl] with one of
    the four actions and one of the four candidate units.  This holds for
    every input, every environment and every behaviour of the processes,
    and no invocation is dropped from the record. *)
Theorem main_spawns_only `{Pathlib} (os : OS) (st : State) :
  exists binary new,
    find_binary os st = (Ok binary, st) /\
    spawned (snd (main os st)) = (spawned st ++ new)%list /\
    Forall (allowed_command binary) new.
Proof.
  assert (Hfb : exists binary, find_binary os st = (Ok binary, st)).
  { unfold find_binary, bind, environ_get, ret.
    destruct (environ os "OPENNET_BIN") as [[|c v]|]; eexists; reflexivity. }
  destruct Hfb as (binary & Hfb). exists binary.
  destruct (spawns_menu binary (S (List.length (pending st))) os st) as (new & E & F).
  exists new. split; [exact Hfb|].
  unfold main. rewrite (bind_ok _ _ _ _ _ _ Hfb). auto.
Qed.

(** ** The leaf actions *)

Section Leaves.

Context `{Pathlib}.
Variable os : OS.
Variable binary : Path.

(** One question answered by a line, on a state written out. *)
Lemma prompt_step {A : Type} (msg line : string) (k : string -> M A)
    (sp : list (list string)) (rest : list input_event) (wr : list string) :
  bind (prompt msg) k os (mkState sp (Line line :: rest) wr)
  = k (strip line) os (mkState sp rest (wr ++ [msg])).
Proof. reflexivity. Qed.

(** One question at the end of the input. *)
Lemma prompt_step_eof {A : Type} (msg : string) (k : string -> M A)
    (sp : list (list string)) (wr : list string) :
  bind (prompt msg) k os (mkState sp [] wr)
  = (Raise EOFError, mkState sp [] (wr ++ [msg])).
Proof. reflexivity. Qed.

(** X10. The wire format of the simple leaf actions.  Each of
    [show_server], [add_server], [delete_server], [list_clients],
    [add_client], [export_client], [start_server] and [stop_server] asks
    its questions in the order of the table, and then runs the binary
    once, with the subcommand and the flags of the table and the trimmed
    answers in the places of the table: no answer is dropped, swapped or
    changed otherwise. *)
Theorem leaf_actions_wire_format :
  Forall (fun entry =>
            forall (st : State) (lines : list string) (rest : list input_event),
              List.length lines = List.length (snd (fst entry)) ->
              pending st = (map Line lines ++ rest)%list ->
              fst (fst entry) os st
              = run (snd entry (map strip lines)) os
                    (mkState (spawned st) rest (written st ++ snd (fst entry))))
         (leaf_table binary).
Proof.
  unfold leaf_table. cbv zeta. forall_entries; cbn [fst snd];
    intros [sp pe wr] lines rest Hlen E; cbn [spawned pending written] in *; subst pe;
    destruct lines as [|l1 [|l2 [|l3 [|l4 lines]]]]; try discriminate Hlen;
    cbn [map app nth];
    unfold show_server, add_server, delete_server, list_clients, add_client,
      export_client, start_server, stop_server;
    rewrite !prompt_step; repeat rewrite <- app_assoc; reflexivity.
Qed.

(** X11. An action whose questions are cut short by the end of the input
    starts no process: with fewer lines left than it has questions, each
    of the eleven actions that ask questions ends with [EOFError], and
    what was spawned before is all that is spawned. *)
Theorem leaf_action_eof :
  Forall (fun entry =>
            forall (st : State) (lines : list string),
              List.length lines < snd entry ->
              pending st = map Line lines ->
              fst (fst entry os st) = Raise EOFError /\
              spawned (snd (fst entry os st)) = spawned st)
         (prompting_actions binary).
Proof.
  unfold prompting_actions. forall_entries; cbn [fst snd];
    intros [sp pe wr] lines Hlen E; cbn [spawned pending written] in *; subst pe;
    destruct lines as [|l1 [|l2 [|l3 lines]]]; cbn [List.length] in Hlen; try lia;
    cbn [map];
    unfold show_server, add_server, delete_server, list_clients, add_client,
      export_client, start_server, stop_server, reload_server, connect_client,
      disconnect_client, ask_yes_no;
    rewrite ?prompt_step; split; reflexivity.
Qed.

(** The argument vector of [connect_client] and [disconnect_client]. *)
Lemma ninja_step (verb server client answer : string)
    (sp : list (list string)) (rest : list input_event) (wr : list string) :
  (server <- prompt "Server name: " ;;
   client <- prompt "Client name: " ;;
   use_ninja <- ask_yes_no "Use ninja mode (Tor)? [y/N]: " ;;
   let cmd := [path_str binary; verb; "--server"; server; "--client"; client] in
   let cmd := if use_ninja then (cmd ++ ["--ninja"])%list else cmd in
   run cmd) os (mkState sp (Line server :: Line client :: Line answer :: rest) wr)
  = run ([path_str binary; verb; "--server"; strip server; "--client"; strip client]
         ++ (if startswith (lower (strip answer)) "y" then ["--ninja"] else []))%list
        os (mkState sp rest
                    (wr ++ ["Server name: "; "Client name: ";
                            "Use ninja mode (Tor)? [y/N]: "])).
Proof.
  transitivity
    (run (if startswith (lower (strip answer)) "y"
          then ([path_str binary; verb; "--server"; strip server; "--client"; strip client]
                ++ ["--ninja"])%list
          else [path_str binary; verb; "--server"; strip server; "--client"; strip client])
         os (mkState sp rest
                     (((wr ++ ["Server name: "]) ++ ["Client name: "])
                      ++ ["Use ninja mode (Tor)? [y/N]: "]))).
  - reflexivity.
  - repeat rewrite <- app_assoc. cbn [app].
    destruct (startswith (lower (strip answer)) "y"); reflexivity.
Qed.

(** X12. The ninja question.  [connect_client] and [disconnect_client]
    ask for the server, the client and ninja mode, and run the binary
    once with [connect] or [disconnect], [--server], the server,
    [--client], the client, and, exactly when the third answer is
    affirmative, [--ninja] as the last argument. *)
Theorem ninja_flag (st : State) (server client answer : string)
    (rest : list input_event) :
  pending st = Line server :: Line client :: Line answer :: rest ->
  let flag := if startswith (lower (strip answer)) "y" then ["--ninja"] else [] in
  let asked := mkState (spawned st) rest
                       (written st ++ ["Server name: "; "Client name: ";
                                       "Use ninja mode (Tor)? [y/N]: "]) in
  connect_client binary os st
  = run ([path_str binary; "connect"; "--server"; strip server; "--client"; strip client]
         ++ flag)%list os asked /\
  disconnect_client binary os st
  = run ([path_str binary; "disconnect"; "--server"; strip server; "--client"; strip client]
         ++ flag)%list os asked.
Proof.
  destruct st as [sp pe wr]. cbn [spawned pending written]. intros ->. cbv zeta.
  split; [unfold connect_client | unfold disconnect_client]; apply ninja_step.
Qed.

End Leaves.

Lemma leaf_actions_wire_format_witness :
  @export_client Fakes.plain_paths "/usr/local/bin/opennet" (Fakes.fake_binary 0)
                 (Fakes.fresh [Line " wg0"; Line "phone "; Line "~/phone.conf"; Line "b"])
  = (Ok (mkCommandResult
           "/usr/local/bin/opennet export-client --server wg0 --client phone --output '~/phone.conf'"
           "ok" "" 0),
     mkState [["/usr/local/bin/opennet"; "export-client"; "--server"; "wg0";
               "--client"; "phone"; "--output"; "~/phone.conf"]]
             [Line "b"]
             ["Server name: "; "Client name: "; "Output path (e.g., ~/client.conf): "]).
Proof.
  pose proof (@leaf_actions_wire_format Fakes.plain_paths (Fakes.fake_binary 0)
                "/usr/local/bin/opennet") as W.
  unfold leaf_table in W. cbv zeta in W.
  do 5 (apply Forall_inv_tail in W). apply Forall_inv in W. cbn [fst snd] in W.
  rewrite (W (Fakes.fresh [Line " wg0"; Line "phone "; Line "~/phone.conf"; Line "b"])
             [" wg0"; "phone "; "~/phone.conf"] [Line "b"] eq_refl eq_refl).
  reflexivity.
Defined.

Lemma leaf_action_eof_witness :
  fst (@add_client Fakes.plain_paths "/usr/local/bin/opennet" (Fakes.fake_binary 0)
         (Fakes.fresh [Line "wg0"])) = Raise EOFError /\
  spawned (snd (@add_client Fakes.plain_paths "/usr/local/bin/opennet"
                  (Fakes.fake_binary 0) (Fakes.fresh [Line "wg0"]))) = [].
Proof.
  pose proof (@leaf_action_eof Fakes.plain_paths (Fakes.fake_binary 0)
                "/usr/local/bin/opennet") as W.
  unfold prompting_actions in W.
  do 4 (apply Forall_inv_tail in W). apply Forall_inv in W. cbn [fst snd] in W.
  exact (W (Fakes.fresh [Line "wg0"]) ["wg0"] (le_n 2) eq_refl).
Defined.

Lemma ninja_flag_witness :
  spawned (snd (@connect_client Fakes.plain_paths "/usr/local/bin/opennet"
                  (Fakes.fake_binary 0)
                  (Fakes.fresh [Line "wg0"; Line "phone"; Line "Yes"])))
  = [["/usr/local/bin/opennet"; "connect"; "--server"; "wg0"; "--client"; "phone";
      "--ninja"]].
Proof.
  rewrite (proj1 (@ninja_flag Fakes.plain_paths (Fakes.fake_binary 0)
                    "/usr/local/bin/opennet"
                    (Fakes.fresh [Line "wg0"; Line "phone"; Line "Yes"])
                    "wg0" "phone" "Yes" [] eq_refl)).
  reflexivity.
Defined.

(** ** A service manager that cannot be started; the command text *)

Lemma probe_raises (os : OS) (action : string) (k : nat) :
  forall (names : list string) (last : option CommandResult) (st : State)
         (name : string) (e : exn),
    nth_error names k = Some name ->
    (forall i, i < k -> probe_fails os st action names i) ->
    spawn os (spawned (after_probes st action names k)) ["systemctl"; action; name]
      = SpawnRaises e ->
    probe action names last os st = (Raise e, after_probes st action names (S k)).
Proof.
  induction k as [|k IH]; intros names last st name e Hn Hfail He.
  - destruct names as [|n0 names]; [discriminate|]. injection Hn as ->.
    rewrite after_probes_0 in He. cbn [probe].
    rewrite (bind_raise _ _ _ _ _ _ (run_raises _ _ _ _ He)).
    unfold after_probes, after_spawn. reflexivity.
  - destruct names as [|n0 names]; [discriminate|]. cbn [nth_error] in Hn.
    destruct (Hfail 0 (Nat.lt_0_succ k) n0 eq_refl) as (q & Hq & Hnz).
    rewrite after_probes_0 in Hq. cbn [probe].
    rewrite (bind_ok _ _ _ _ _ _ (run_exited _ _ _ _ Hq)).
    cbn [completed returncode].
    destruct (Z.eqb_spec (proc_returncode q) 0) as [Hc|_]; [contradiction|].
    rewrite <- !after_probes_S in *.
    apply (IH names _ _ name e); auto.
    intros i Hi. apply probe_fails_tail. apply Hfail. lia.
Qed.

(** X13. No fallback past a failure to start.  For a supported action,
    when the candidates before index [k] end with a non-zero exit status
    and the invocation for the candidate at [k] cannot be started,
    [tor_service] raises that exception after exactly [k + 1]
    invocations: the later candidates are not tried, and no result with
    the hint is made.  Under the [try] of a menu this becomes the notice
    of the exception. *)
Theorem tor_service_start_failure (os : OS) (action : string) (st : State)
    (k : nat) (name : string) (e : exn) :
  In action supported_actions ->
  nth_error service_names k = Some name ->
  (forall i, i < k -> probe_fails os st action service_names i) ->
  spawn os (spawned (after_probes st action service_names k)) ["systemctl"; action; name]
    = SpawnRaises e ->
  tor_service action os st = (Raise e, after_probes st action service_names (S k)) /\
  run_action (tor_service action) os st
  = (Ok tt,
     mkState (spawned st ++ invocations action (firstn (S k) service_names))
             (pending st) (written st ++ [caught_notice e])).
Proof.
  intros Hin Hn Hfail He.
  assert (E : tor_service action os st
              = (Raise e, after_probes st action service_names (S k))).
  { rewrite (tor_service_supported os action st Hin).
    exact (probe_raises os action k service_names None st name e Hn Hfail He). }
  split; [exact E|].
  pose proof (run_action_outcome os (tor_service action) st) as Ho.
  rewrite E in Ho. exact Ho.
Qed.

Lemma tor_service_start_failure_witness :
  tor_service "start"
    (mkOS (fun _ _ => SpawnRaises (FileNotFoundError "No such file or directory: 'systemctl'"))
          (fun _ => None) (fun _ => ExistsReturns true))
    (Fakes.fresh [])
  = (Raise (FileNotFoundError "No such file or directory: 'systemctl'"),
     mkState [["systemctl"; "start"; "tor"]] [] []).
Proof.
  refine (proj1 (tor_service_start_failure
            (mkOS (fun _ _ => SpawnRaises
                                (FileNotFoundError "No such file or directory: 'systemctl'"))
                  (fun _ => None) (fun _ => ExistsReturns true))
            "start" (Fakes.fresh []) 0 "tor"
            (FileNotFoundError "No such file or directory: 'systemctl'") _ eq_refl _ eq_refl)).
  - simpl. auto.
  - intros i Hi. inversion Hi.
Defined.

(** X14. The command text identifies the argument vector: two argument
    vectors with the same command text are the same, so what is shown
    after the marker of the result presenter is not ambiguous. *)
Theorem command_text_injective (cmd cmd' : list string) :
  command_text cmd = command_text cmd' -> cmd = cmd'.
Proof.
  intros E.
  pose proof (ShlexFacts.tokens_command_text cmd
                (S (List.length cmd + List.length cmd')) ltac:(lia)) as T1.
  pose proof (ShlexFacts.tokens_command_text cmd'
                (S (List.length cmd + List.length cmd')) ltac:(lia)) as T2.
  rewrite E in T1. rewrite T1 in T2. now injection T2.
Qed.

Lemma command_text_injective_witness :
  ["up"; "a b"] = ["up"; "a b"].
Proof.
  exact (command_text_injective ["up"; "a b"] ["up"; "a b"] eq_refl).
Defined.

Lemma menu_declined_witness :
  @menu Fakes.plain_paths 3 "/usr/local/bin/opennet" (Fakes.fake_binary 0)
        (Fakes.fresh [Line "no"; Line "1"])
  = (Ok tt, mkState [] [Line "1"]
                    [printed art; "Press Y to continue or N to quit: ";
                     printed "Declined. Bye."]).
Proof.
  exact (@menu_declined Fakes.plain_paths (Fakes.fake_binary 0) 3
           "/usr/local/bin/opennet" (Fakes.fresh [Line "no"; Line "1"]) "no" [Line "1"]
           eq_refl eq_refl eq_refl).
Defined.

Lemma find_binary_empty_override_witness :
  @find_binary Fakes.plain_paths (Fakes.fake_os [] 1 (Some "")) (Fakes.fresh [])
  = (Ok "/opt/wirestack/opennet/opennet", Fakes.fresh []).
Proof.
  exact (@find_binary_empty_override Fakes.plain_paths (Fakes.fake_os [] 1 (Some ""))
           (Fakes.fresh []) eq_refl).
Defined.

(** X18. The question of the entry gate is outside every [try]: when the
    binary exists and the input ends at that question, [menu] ends with
    [EOFError], and on Ctrl-C with [KeyboardInterrupt], after the banner
    and the question have been written; no menu is entered. *)
Theorem menu_gate_uncaught `{Pathlib} (os : OS) (fuel : nat) (binary : Path) (st : State) :
  file_exists os (path_str binary) = ExistsReturns true ->
  (pending st = [] ->
   menu fuel binary os st
   = (Raise EOFError,
      mkState (spawned st) []
              (written st ++ [printed art; "Press Y to continue or N to quit: "]))) /\
  (forall rest, pending st = Interrupt :: rest ->
   menu fuel binary os st
   = (Raise KeyboardInterrupt,
      mkState (spawned st) rest
              (written st ++ [printed art; "Press Y to continue or N to quit: "]))).
Proof.
  intros Hex.
  assert (Hmenu : menu fuel binary os st
                  = bind (ask_yes_no "Press Y to continue or N to quit: ")
                         (fun go => if negb go then print "Declined. Bye."
                                    else while_true fuel (menu_body fuel binary))
                         os (mkState (spawned st) (pending st)
                                     (written st ++ [printed art]))).
  { unfold menu, try_except, ensure_binary, path_exists, bind at 1 2 3.
    rewrite Hex. cbn [negb ret]. unfold print_banner. now rewrite bind_print. }
  rewrite Hmenu. unfold ask_yes_no. split; [intros E | intros rest E].
  - rewrite (bind_raise _ _ _ _ _ _
               (bind_raise _ _ _ _ _ _
                  (prompt_eof os "Press Y to continue or N to quit: "
                     (mkState (spawned st) (pending st) (written st ++ [printed art])) E))).
    unfold after_input. cbn [spawned pending written].
    now rewrite <- app_assoc.
  - rewrite (bind_raise _ _ _ _ _ _
               (bind_raise _ _ _ _ _ _
                  (prompt_interrupt os "Press Y to continue or N to quit: "
                     (mkState (spawned st) (pending st) (written st ++ [printed art]))
                     rest E))).
    unfold after_input. cbn [spawned pending written].
    now rewrite <- app_assoc.
Qed.

Lemma menu_gate_uncaught_witness :
  @menu Fakes.plain_paths 3 "/usr/local/bin/opennet" (Fakes.fake_binary 0)
        (Fakes.fresh [Interrupt; Line "y"])
  = (Raise KeyboardInterrupt,
     mkState [] [Line "y"] [printed art; "Press Y to continue or N to quit: "]).
Proof.
  exact (proj2 (@menu_gate_uncaught Fakes.plain_paths (Fakes.fake_binary 0) 3
                  "/usr/local/bin/opennet" (Fakes.fresh [Interrupt; Line "y"]) eq_refl)
               [Line "y"] eq_refl).
Defined.
